(** * The checkout [Core] controller of adyen-web

    A shallow embedding of [packages/lib/src/core/core.ts]: the
    configuration merge, the constructor, the session-backed
    initialisation, the submission of additional details and the action
    dispatcher, followed by the properties the specification states
    about them.

    JavaScript objects are finite maps from property names to values;
    the instance ([this]) and the host page are threaded explicitly
    through a small state-and-exception monad; a promise is a deferred
    computation of that monad whose result says how it settles. *)

From stdpp Require Import gmap strings list fin_maps pretty.
From Stdlib Require Import ZArith Ascii.

Set Warnings "-register-all".
Local Open Scope string_scope.

(** ** JavaScript values *)

(** The error classes the controller throws or receives. *)
Inductive ErrorClass : Type :=
| AdyenCheckoutError (type : string)
| PlainError
| TypeError.

(** Values. An object is the finite map of its own properties (a key may
    be present and hold [VUndefined], which a spread copies); a function
    is known by its reference; numbers are the integer-valued ones. *)
Inductive Val : Type :=
| VUndefined
| VNull
| VBool (b : bool)
| VNum (n : Z)
| VStr (s : string)
| VObj (fields : gmap string Val)
| VError (cls : ErrorClass) (message : string)
| VFun (ref : nat).

Abbreviation Obj := (gmap string Val).

(** [ToBoolean]. *)
Definition truthy (v : Val) : bool :=
  match v with
  | VUndefined | VNull => false
  | VBool b => b
  | VNum n => negb (n =? 0)%Z
  | VStr s => negb (String.eqb s EmptyString)
  | VObj _ | VError _ _ | VFun _ => true
  end.

Definition falsy (v : Val) : bool := negb (truthy v).

(** [a || b] and [a ?? b] on values. *)
Definition js_or (a b : Val) : Val := if truthy a then a else b.
Definition nullish (v : Val) : bool :=
  match v with VUndefined | VNull => true | _ => false end.
Definition js_coalesce (a b : Val) : Val := if nullish a then b else a.

(** [v === 'literal']. *)
Definition is_str (v : Val) (lit : string) : bool :=
  match v with VStr s => String.eqb s lit | _ => false end.

(** [o.k] on an object known by its property map. *)
Definition get (o : Obj) (k : string) : Val := default VUndefined (o !! k).

Definition error_name (cls : ErrorClass) : string :=
  match cls with
  | AdyenCheckoutError _ => "AdyenCheckoutError"
  | PlainError => "Error"
  | TypeError => "TypeError"
  end.

(** [{ ...v }]: the own properties of an object, nothing for the rest. *)
Definition spread (v : Val) : Obj :=
  match v with VObj o => o | _ => ∅ end.

(** A name between double quotes, as the messages write it. *)
Definition quoted (s : string) : string :=
  String "034"%char (s ++ String "034"%char EmptyString).

(** [s.includes(sub)]. *)
Fixpoint includes (s sub : string) : bool :=
  String.prefix sub s
  || match s with
     | EmptyString => false
     | String _ s' => includes s' sub
     end.

(** ** Outcomes

    [Ok] is a normal return or a fulfilled promise, [Throw] an exception
    or a rejected promise, [Never] a promise that never settles. *)
Inductive Res (A : Type) : Type :=
| Ok (a : A)
| Throw (e : Val)
| Never.
Arguments Ok {A} a.
Arguments Throw {A} e.
Arguments Never {A}.

(** ** The instance and the host *)

(** Modelled from the spec: the [Session] class of [CheckoutSession],
    which is not among the sources. The spec gives a session an
    identifier and token (the raw session), the client key and the
    resolved loading context, "created at Core construction if session
    config present"; [new Session(rawSession, clientKey,
    loadingContext)] is the record of its three arguments, and what the
    class's own constructor checks is not modelled. *)
Record Session : Type := mkSession {
  session_raw : Val;
  session_clientKey : Val;
  session_loadingContext : string
}.

(** [new PaymentMethods(response, options)]. *)
Record PaymentMethods : Type := mkPaymentMethods {
  pm_response : Val;
  pm_options : Obj
}.

(** The frozen [modules] object: where it lives, and what each module
    was constructed from. *)
Record Modules : Type := mkModules {
  modules_ref : nat;
  risk : Obj;
  analytics : Obj;
  resources : string;
  i18n : Val * Val * Val;
  srPanel : Obj
}.

(** What a component receives as a prop: a plain value or one of the
    instance's own parts. *)
Inductive PropVal : Type :=
| PVal (v : Val)
| PCore
| PI18n (l : Val * Val * Val)
| PModules (m : Modules)
| PSession (s : option Session)
| PContext (c : string)
| PCreateFromAction.

Record UIElement : Type := mkUIElement {
  _id : nat;
  element_class : nat;
  element_props : gmap string PropVal
}.

(** The fields of a [Core] instance. [session] is [None] when
    [options.session] was falsy at construction, [modules] and
    [paymentMethodsResponse] are [None] until first assigned. *)
Record Core : Type := mkCore {
  session : option Session;
  paymentMethodsResponse : option PaymentMethods;
  modules : option Modules;
  options : Obj;
  loadingContext : string;
  cdnContext : string;
  analyticsContext : string;
  components : list UIElement
}.

(** [Core.metadata], filled from the build environment. *)
Record Metadata : Type := mkMetadata {
  version : Val;
  revision : Val;
  branch : Val;
  buildId : Val;
  bundleType : Val
}.

(** What the host observes, in the order it happens. *)
Inductive Event : Type :=
| ConsoleWarn (msg : string)
| Called (callback : string) (f : nat) (args : list Val)
| SessionSetup (s : Session) (opts : Obj)
| SessionSubmitDetails (s : Session) (details : Val)
| SendAnalytics (component : Val) (event : Obj)
| ElementUpdate (el : UIElement) (opts : Obj)
| ElementUnmount (el : UIElement).

Record World : Type := mkWorld {
  metadata : Metadata;
  window_AdyenWebMetadata : option Metadata;
  registry : gmap string nat;
  next_ref : nat;
  log : list Event
}.

Definition emit_in (ev : Event) (w : World) : World :=
  mkWorld (metadata w) (window_AdyenWebMetadata w) (registry w) (next_ref w)
          (log w ++ [ev]).

Definition publish_metadata (w : World) : World :=
  mkWorld (metadata w) (Some (metadata w)) (registry w) (next_ref w) (log w).

Definition alloc_in (w : World) : World :=
  mkWorld (metadata w) (window_AdyenWebMetadata w) (registry w)
          (S (next_ref w)) (log w).

Definition with_options (o : Obj) (c : Core) : Core :=
  mkCore (session c) (paymentMethodsResponse c) (modules c) o
         (loadingContext c) (cdnContext c) (analyticsContext c) (components c).

Definition with_paymentMethodsResponse (p : PaymentMethods) (c : Core) : Core :=
  mkCore (session c) (Some p) (modules c) (options c)
         (loadingContext c) (cdnContext c) (analyticsContext c) (components c).

Definition with_modules (m : Modules) (c : Core) : Core :=
  mkCore (session c) (paymentMethodsResponse c) (Some m) (options c)
         (loadingContext c) (cdnContext c) (analyticsContext c) (components c).

Definition with_components (l : list UIElement) (c : Core) : Core :=
  mkCore (session c) (paymentMethodsResponse c) (modules c) (options c)
         (loadingContext c) (cdnContext c) (analyticsContext c) l.

(** ** Collaborators outside [core.ts]

    The modules [core.ts] imports and the runtime it runs on, taken as
    they are used: environment resolution, the two session exchanges,
    the merchant's way of settling the promise handed to
    [onAdditionalDetails], the response post-processing of
    [UIElement/utils], and the imported constants. *)
Record Externals : Type := mkExternals {
  resolveEnvironment : Val -> Val -> string;
  resolveCDNEnvironment : Val -> Val -> string;
  resolveAnalyticsEnvironment : Val -> string;
  session_setupSession : Session -> Obj -> Res Obj;
  session_submitDetails : Session -> Val -> Res Val;
  merchant_settles : nat -> Val -> Res Val;
  sanitizeResponse : Val -> Res Val;
  verifyPaymentDidNotFail : Val -> Res Val;
  cleanupFinalResult : Val -> Val;
  processGlobalOptions : Obj -> Obj;
  THREEDS2_FULL : string;
  DEFAULT_LOCALE : string;
  ANALYTICS_ACTION_STR : string;
  NODE_ENV : Val;
  JSON_stringify : Val -> string;
  fun_source : nat -> string;
  fun_prop : nat -> string -> Val
}.

(** Modelled from the spec: the constant [IMPLEMENTATION_ERROR] exported
    by [Errors/AdyenCheckoutError], which is not among the sources; it is
    the error type the constructor and [submitDetails] write as a
    literal, the spec's [ImplementationError]. *)
Definition IMPLEMENTATION_ERROR : string := "IMPLEMENTATION_ERROR".

Definition ImplementationError (message : string) : Val :=
  VError (AdyenCheckoutError IMPLEMENTATION_ERROR) message.

Definition is_ImplementationError (e : Val) : Prop :=
  ∃ message, e = ImplementationError message.

(** Modelled from the spec: [hasOwnProperty] of [utils/hasOwnProperty],
    which is not among the sources; the object "has" the field. *)
Definition hasOwnProperty (v : Val) (k : string) : bool :=
  match v with
  | VObj o => match o !! k with Some _ => true | None => false end
  | _ => false
  end.

(** ** The monad: the instance and the host, with exceptions *)

Definition M (A : Type) : Type := Core * World -> Res A * (Core * World).

Definition ret {A} (a : A) : M A := fun st => (Ok a, st).

Definition bind {A B} (m : M A) (k : A -> M B) : M B :=
  fun st =>
    match m st with
    | (Ok a, st') => k a st'
    | (Throw e, st') => (Throw e, st')
    | (Never, st') => (Never, st')
    end.

Definition throw {A} (e : Val) : M A := fun st => (Throw e, st).

(** [try { m } catch (e) { h e }], and [p.catch(h)] on a promise. *)
Definition catch {A} (m : M A) (h : Val -> M A) : M A :=
  fun st =>
    match m st with
    | (Throw e, st') => h e st'
    | r => r
    end.

(** How an external exchange settles. *)
Definition settle {A} (r : Res A) : M A := fun st => (r, st).

Definition this : M Core := fun st => (Ok (fst st), st).
Definition host : M World := fun st => (Ok (snd st), st).
Definition modify_this (f : Core -> Core) : M unit :=
  fun st => (Ok tt, (f (fst st), snd st)).
Definition modify_host (f : World -> World) : M unit :=
  fun st => (Ok tt, (fst st, f (snd st))).
Definition emit (ev : Event) : M unit := modify_host (emit_in ev).

(** A promise chain nobody awaits: it runs after the caller has
    returned, and its settlement is dropped. *)
Definition detached {A} (p : M A) : M unit :=
  fun st => (Ok tt, snd (p st)).

Declare Scope js_scope.
Delimit Scope js_scope with js.
Notation "x <- m ;; k" := (bind m (fun x => k))
  (at level 100, m at next level, right associativity) : js_scope.
Notation "m ;;; k" := (bind m (fun _ => k))
  (at level 100, right associativity) : js_scope.
Local Open Scope js_scope.

Section CoreModel.

Context (ext : Externals).

(** [String(v)], as a template literal converts its holes. *)
Definition ToString (v : Val) : string :=
  match v with
  | VUndefined => "undefined"
  | VNull => "null"
  | VBool true => "true"
  | VBool false => "false"
  | VNum n => pretty n
  | VStr s => s
  | VObj _ => "[object Object]"
  | VError cls m =>
      if String.eqb m EmptyString then error_name cls else error_name cls ++ ": " ++ m
  | VFun f => fun_source ext f
  end.

(** [v.k] on any value that is not null or undefined. *)
Definition prop (v : Val) (k : string) : Val :=
  match v with
  | VObj o => get o k
  | VError cls m =>
      if String.eqb k "message" then VStr m
      else if String.eqb k "name" then VStr (error_name cls)
      else match cls with
           | AdyenCheckoutError t => if String.eqb k "type" then VStr t else VUndefined
           | _ => VUndefined
           end
  | VFun f => fun_prop ext f k
  | _ => VUndefined
  end.

(** [v?.k]. *)
Definition opt_prop (v : Val) (k : string) : Val :=
  if nullish v then VUndefined else prop v k.

(** [f(...args)] for a configured callback: a host function is recorded
    and returns; anything else is not callable. *)
Definition call (name : string) (f : Val) (args : list Val) : M unit :=
  match f with
  | VFun r => emit (Called name r args)
  | _ => throw (VError TypeError (name ++ " is not a function"))
  end.

(** [f?.(...args)]. *)
Definition opt_call (name : string) (f : Val) (args : list Val) : M unit :=
  if nullish f then ret tt else call name f args.

(** *** [setOptions] *)

(** The object [setOptions] builds from [this.options] and [options]. *)
Definition merge_options (current incoming : Obj) : Obj :=
  <["locale" := js_or (get incoming "locale") (get current "locale")]>
    (incoming ∪ current).

Definition setOptions (incoming : Obj) : M unit :=
  modify_this (fun c => with_options (merge_options (options c) incoming) c).

(** *** The constructor *)

(** [clientKey?.substr(0, 4)]. *)
Definition clientKey_substr (clientKey : Val) : Res Val :=
  match clientKey with
  | VUndefined | VNull => Ok VUndefined
  | VStr s => Ok (VStr (String.substring 0 4 s))
  | _ => Throw (VError TypeError "this.options.clientKey.substr is not a function")
  end.

(** [this.setOptions({ exposeLibraryMetadata: true, ...props })]. Before
    this first [setOptions], [this.options] is undefined: its spread is
    empty and its [?.locale] undefined, as for [∅]. *)
Definition initial_options (props : Obj) : Obj :=
  merge_options ∅ (props ∪ {["exposeLibraryMetadata" := VBool true]}).

(** The constructor. [this.options.session && new Session(...)]: a
    session object is built only for a truthy [options.session], as the
    record [Session] describes. *)
Definition constructor (props : Obj) (w : World) : Res Core * World :=
  let options := initial_options props in
  let api := opt_prop (get options "environmentUrls") "api" in
  let loadingContext := resolveEnvironment ext (get options "environment") api in
  let cdnContext :=
    resolveCDNEnvironment ext
      (js_or (get options "resourceEnvironment") (get options "environment")) api in
  let analyticsContext := resolveAnalyticsEnvironment ext (get options "environment") in
  let session :=
    if truthy (get options "session")
    then Some (mkSession (get options "session") (get options "clientKey") loadingContext)
    else None in
  match clientKey_substr (get options "clientKey") with
  | Ok clientKeyType =>
      if (is_str clientKeyType "test" || is_str clientKeyType "live")
         && negb (includes loadingContext (ToString clientKeyType))
      then
        (Throw (VError (AdyenCheckoutError "IMPLEMENTATION_ERROR")
                  ("Error: you are using a " ++ ToString clientKeyType
                   ++ " clientKey against the "
                   ++ ToString (get options "environment") ++ " environment")),
         w)
      else
        (Ok (mkCore session None None options
                    loadingContext cdnContext analyticsContext []),
         if truthy (get options "exposeLibraryMetadata")
         then publish_metadata w else w)
  | Throw e => (Throw e, w)
  | Never => (Never, w)
  end.

(** *** [initialize] *)

Definition createPaymentMethodsList (paymentMethodsResponse : Val) : M unit :=
  modify_this (fun c =>
    with_paymentMethodsResponse
      (mkPaymentMethods
         (js_or (get (options c) "paymentMethodsResponse") paymentMethodsResponse)
         (options c))
      c).

(** [session.setupSession(options)]: the exchange starts, then settles. *)
Definition setupSession (s : Session) (opts : Obj) : M Obj :=
  emit (SessionSetup s opts) ;;;
  settle (session_setupSession ext s opts).

(** The object the session handler passes to [setOptions]:
    [{ ...rest, amount: ..., locale: ..., countryCode: ... }], read
    against the options of that moment. *)
Definition session_fold (current sessionResponse : Obj) : Obj :=
  let amount := get sessionResponse "amount" in
  let shopperLocale := get sessionResponse "shopperLocale" in
  let countryCode := get sessionResponse "countryCode" in
  let rest :=
    delete "paymentMethods"
      (delete "countryCode"
         (delete "shopperLocale" (delete "amount" sessionResponse))) in
  <["countryCode" := js_or (get current "countryCode") countryCode]>
    (<["locale" := js_or (get current "locale") shopperLocale]>
       (<["amount" :=
            if truthy (get current "order")
            then prop (get current "order") "remainingAmount"
            else amount]> rest)).

Definition initializeCore : M unit :=
  c <- this ;;
  match session c with
  | Some s =>
      catch
        (sessionResponse <- setupSession s (options c) ;;
         let paymentMethods := get sessionResponse "paymentMethods" in
         c' <- this ;;
         setOptions (session_fold (options c') sessionResponse) ;;;
         createPaymentMethodsList paymentMethods)
        (fun error =>
           c' <- this ;;
           (if truthy (get (options c') "onError")
            then call "onError" (get (options c') "onError") [error]
            else ret tt) ;;;
           throw error)
  | None => createPaymentMethodsList VUndefined
  end.

Definition validateCoreConfiguration : M unit :=
  c <- this ;;
  (if truthy (get (options c) "paymentMethodsConfiguration")
   then emit (ConsoleWarn
     ("WARNING:  " ++ quoted "paymentMethodsConfiguration"
      ++ " is supported only by Drop-in."))
   else ret tt) ;;;
  (if negb (truthy (get (options c) "locale"))
   then setOptions {["locale" := VStr (DEFAULT_LOCALE ext)]}
   else ret tt) ;;;
  c' <- this ;;
  if negb (truthy (get (options c') "countryCode"))
  then throw (VError (AdyenCheckoutError IMPLEMENTATION_ERROR)
    "You must specify a countryCode when initializing checkout. (If you are using a session then this session should be initialized with a countryCode.)")
  else ret tt.

(** What each module is constructed from. *)
Definition new_modules (ref : nat) (c : Core) (w : World) : Modules :=
  mkModules ref
    (<["loadingContext" := VStr (loadingContext c)]> (options c))
    (<["bundleType" := bundleType (metadata w)]>
       (<["amount" := get (options c) "amount"]>
          (<["analytics" := get (options c) "analytics"]>
             (<["locale" := get (options c) "locale"]>
                (<["clientKey" := get (options c) "clientKey"]>
                   (<["analyticsContext" := VStr (analyticsContext c)]>
                      {["loadingContext" := VStr (loadingContext c)]}))))))
    (cdnContext c)
    (get (options c) "locale", get (options c) "translations",
     get (options c) "translationFile")
    (spread (get (options c) "srConfig")).

Definition createCoreModules : M unit :=
  c <- this ;;
  match modules c with
  | Some _ =>
      if is_str (NODE_ENV ext) "development"
      then emit (ConsoleWarn "Core: Core modules are already created.")
      else ret tt
  | None =>
      w <- host ;;
      modify_host alloc_in ;;;
      modify_this (with_modules (new_modules (next_ref w) c w))
  end.

Definition initialize : M unit :=
  initializeCore ;;;
  validateCoreConfiguration ;;;
  createCoreModules.

(** *** [submitDetails] *)

(** How the promise built around [onAdditionalDetails] settles: as the
    merchant settles it, or rejected at once when the option cannot be
    called. *)
Definition merchant_settlement (callback details : Val) : M Val :=
  match callback with
  | VFun f => settle (merchant_settles ext f details)
  | _ => throw (VError TypeError
                  "this.options.onAdditionalDetails is not a function")
  end.

(** [new Promise((resolve, reject) => onAdditionalDetails({ data },
    undefined, { resolve, reject }))]: the executor runs at once. The
    third argument, the pair of settling functions, is the promise
    itself. *)
Definition onAdditionalDetails_promise (details : Val) : M (M Val) :=
  c <- this ;;
  let callback := get (options c) "onAdditionalDetails" in
  match callback with
  | VFun f =>
      emit (Called "onAdditionalDetails" f
              [VObj {["data" := details]}; VUndefined])
  | _ => ret tt
  end ;;;
  ret (merchant_settlement callback details).

(** How [this.session.submitDetails(details).catch(...)] settles. *)
Definition session_settlement (s : Session) (details : Val) : M Val :=
  catch (settle (session_submitDetails ext s details))
    (fun error =>
       c <- this ;;
       opt_call "onError" (get (options c) "onError") [error] ;;;
       throw error).

(** [this.session.submitDetails(details).catch(...)]: the exchange
    starts at once. *)
Definition session_promise (s : Session) (details : Val) : M (M Val) :=
  emit (SessionSubmitDetails s details) ;;;
  ret (session_settlement s details).

(** The chain hung on the chosen promise. *)
Definition postProcess (promise : M Val) : M unit :=
  catch
    (raw <- promise ;;
     sanitized <- settle (sanitizeResponse ext raw) ;;
     response <- settle (verifyPaymentDidNotFail ext sanitized) ;;
     c <- this ;;
     opt_call "onPaymentCompleted" (get (options c) "onPaymentCompleted")
       [cleanupFinalResult ext response])
    (fun response =>
       c <- this ;;
       opt_call "onPaymentFailed" (get (options c) "onPaymentFailed")
         [cleanupFinalResult ext response]).

Definition submitDetails (details : Val) : M unit :=
  c <- this ;;
  promise1 <-
    (if truthy (get (options c) "onAdditionalDetails")
     then p <- onAdditionalDetails_promise details ;; ret (Some p)
     else ret None) ;;
  promise2 <-
    (match session c with
     | Some s => p <- session_promise s details ;; ret (Some p)
     | None => ret promise1
     end) ;;
  match promise2 with
  | None =>
      opt_call "onError" (get (options c) "onError")
        [VError (AdyenCheckoutError "IMPLEMENTATION_ERROR")
           ("It can not submit the details. The callback "
            ++ quoted "onAdditionalDetails"
            ++ " or the Session is not setup correctly.")]
  | Some promise => detached (postProcess promise)
  end.

(** *** [createFromAction] *)

Definition handleCreateError {A} (paymentMethod : Val) : M A :=
  let paymentMethodName :=
    js_coalesce (opt_prop paymentMethod "name") (VStr "The passed payment method") in
  let errorMessage :=
    if truthy paymentMethod
    then ToString paymentMethodName
         ++ " is not a valid Checkout Component. What was passed as a txVariant was: "
         ++ JSON_stringify ext paymentMethod
         ++ ". Check if this payment method is configured in the Backoffice or if the txVariant is a valid one"
    else "No Payment Method component was passed" in
  throw (VError PlainError errorMessage).

Definition getCorePropsForComponent : M (gmap string PropVal) :=
  c <- this ;;
  let globalOptions := processGlobalOptions ext (options c) in
  match modules c with
  | None =>
      throw (VError TypeError
               "Cannot read properties of undefined (reading 'i18n')")
  | Some m =>
      ret (<["createFromAction" := PCreateFromAction]>
             (<["cdnContext" := PContext (cdnContext c)]>
                (<["loadingContext" := PContext (loadingContext c)]>
                   (<["session" := PSession (session c)]>
                      (<["modules" := PModules m]>
                         (<["i18n" := PI18n (i18n m)]>
                            (<["core" := PCore]> (PVal <$> globalOptions))))))))
  end.

(** The component an action stands for: type and subtype joined for the
    3DS2 action, the payment method type for the others. *)
Definition component_of (action : Val) : Val :=
  if is_str (prop action "type") (THREEDS2_FULL ext)
  then VStr (ToString (prop action "type") ++ ToString (prop action "subtype"))
  else prop action "paymentMethodType".

(** [registry.getComponent(key)]: the registry is keyed by strings. *)
Definition registry_getComponent (reg : gmap string nat) (key : Val) : option nat :=
  match key with
  | VStr s => reg !! s
  | _ => None
  end.

(** Modelled from the spec: the message of the error an unknown
    component surfaces as. The dispatcher that raises it is not among
    the sources; the spec asks for "a thrown error naming the offending
    payment method and the raw value passed", and has
    [createFromAction({ type: 'unknownType' })] throw "naming
    [unknownType]". The message therefore spells out the component key
    and the action's type, and ends with the raw action as JSON; the
    wording is this model's own. *)
Definition unknown_component (action : Val) : string :=
  ToString (component_of action)
  ++ " is not a valid Checkout Component for an action of type "
  ++ ToString (prop action "type")
  ++ ". What was passed was: "
  ++ JSON_stringify ext action
  ++ ".".

(** Modelled from the spec: [getComponentForAction] of
    [ProcessResponse/PaymentAction], which is not among the sources. It
    resolves the component key through the registry and constructs a new
    element with the merged props; an unknown key surfaces as a thrown
    error naming the payment method and the raw value passed, never as a
    missing element. *)
Definition getComponentForAction (action : Val) (props : gmap string PropVal)
  : M UIElement :=
  w <- host ;;
  match registry_getComponent (registry w) (component_of action) with
  | Some class =>
      modify_host alloc_in ;;;
      ret (mkUIElement (next_ref w) class props)
  | None => throw (VError PlainError (unknown_component action))
  end.

Definition createFromAction (action : Val) (options_ : Obj) : M UIElement :=
  if negb (truthy action) || negb (truthy (prop action "type"))
  then
    if hasOwnProperty action "action" && hasOwnProperty action "resultCode"
    then throw (VError PlainError
      ("createFromAction::Invalid Action - the passed action object itself has an "
       ++ quoted "action" ++ " property and " ++ "a " ++ quoted "resultCode"
       ++ ": have you passed in the whole response object by mistake?"))
    else throw (VError PlainError
      ("createFromAction::Invalid Action - the passed action object does not have a "
       ++ quoted "type" ++ " property"))
  else if truthy (prop action "type")
  then
    let component := component_of action in
    c <- this ;;
    match modules c with
    | None =>
        throw (VError TypeError
                 "Cannot read properties of undefined (reading 'analytics')")
    | Some _ =>
        emit (SendAnalytics component
                (<["message" := VStr (ToString component
                                      ++ " action was handled by the SDK")]>
                   (<["subtype" := prop action "type"]>
                      {["type" := VStr (ANALYTICS_ACTION_STR ext)]}))) ;;;
        coreProps <- getCorePropsForComponent ;;
        let props := (PVal <$> options_) ∪ coreProps in
        getComponentForAction action props
    end
  else handleCreateError VUndefined.

(** *** [setBundleType], [getComponent] *)

Definition setBundleType (type : Val) : M unit :=
  modify_host (fun w =>
    mkWorld
      (mkMetadata (version (metadata w)) (revision (metadata w))
         (branch (metadata w)) (buildId (metadata w)) type)
      (window_AdyenWebMetadata w) (registry w) (next_ref w) (log w)).

Definition getComponent (txVariant : Val) : M (option nat) :=
  w <- host ;;
  ret (registry_getComponent (registry w) txVariant).

(** *** [update], [remove], [storeElementReference] *)

Fixpoint forEach {A} (l : list A) (f : A -> M unit) : M unit :=
  match l with
  | [] => ret tt
  | x :: l' => f x ;;; forEach l' f
  end.

Definition update (incoming : Obj) : M unit :=
  setOptions incoming ;;;
  initialize ;;;
  c <- this ;;
  forEach (components c) (fun el => emit (ElementUpdate el incoming)).

Definition remove (component : UIElement) : M unit :=
  modify_this (fun c =>
    with_components
      (filter (fun el => _id el ≠ _id component) (components c)) c) ;;;
  emit (ElementUnmount component).

Definition storeElementReference (element : option UIElement) : M unit :=
  match element with
  | Some el => modify_this (fun c => with_components (components c ++ [el]) c)
  | None => ret tt
  end.

End CoreModel.

Arguments handleCreateError ext {A} paymentMethod.

(** ** Reading a run *)

(** How often the callback [name] was invoked in a trace. *)
Definition is_call (name : string) (ev : Event) : bool :=
  match ev with
  | Called n _ _ => String.eqb n name
  | _ => false
  end.

Fixpoint count_calls (name : string) (l : list Event) : nat :=
  match l with
  | [] => 0
  | ev :: l' => (if is_call name ev then 1 else 0) + count_calls name l'
  end.

(** The part of the trace a step added to [before]. *)
Definition added (before after : World) : list Event :=
  drop (length (log before)) (log after).

(** The state a computation ends in, and its outcome. *)
Definition final_core {A} (r : Res A * (Core * World)) : Core := fst (snd r).
Definition final_world {A} (r : Res A * (Core * World)) : World := snd (snd r).
Definition outcome {A} (r : Res A * (Core * World)) : Res A := fst r.

(** The instance and the host after each step of [initialize], as
    functions of the state the step starts in. *)
Definition listed (paymentMethodsResponse : Val) (c : Core) : Core :=
  with_paymentMethodsResponse
    (mkPaymentMethods
       (js_or (get (options c) "paymentMethodsResponse") paymentMethodsResponse)
       (options c))
    c.

Definition folded (ext : Externals) (sessionResponse : Obj) (c : Core) : Core :=
  listed (get sessionResponse "paymentMethods")
    (with_options
       (merge_options (options c) (session_fold ext (options c) sessionResponse))
       c).

Definition localized (ext : Externals) (c : Core) : Core :=
  if negb (truthy (get (options c) "locale"))
  then with_options
         (merge_options (options c) {["locale" := VStr (DEFAULT_LOCALE ext)]}) c
  else c.

Definition legacy_warned (c : Core) (w : World) : World :=
  if truthy (get (options c) "paymentMethodsConfiguration")
  then emit_in (ConsoleWarn
         ("WARNING:  " ++ quoted "paymentMethodsConfiguration"
          ++ " is supported only by Drop-in.")) w
  else w.

Definition rewarned (ext : Externals) (w : World) : World :=
  if is_str (NODE_ENV ext) "development"
  then emit_in (ConsoleWarn "Core: Core modules are already created.") w
  else w.

Definition countryCode_missing : Val :=
  ImplementationError
    "You must specify a countryCode when initializing checkout. (If you are using a session then this session should be initialized with a countryCode.)".

(** The configuration error [submitDetails] reports. *)
Definition no_pathway : Val :=
  ImplementationError
    ("It can not submit the details. The callback "
     ++ quoted "onAdditionalDetails"
     ++ " or the Session is not setup correctly.").

(** The two errors [createFromAction] tells a malformed action with. *)
Definition whole_response_passed : Val :=
  VError PlainError
    ("createFromAction::Invalid Action - the passed action object itself has an "
     ++ quoted "action" ++ " property and a " ++ quoted "resultCode"
     ++ ": have you passed in the whole response object by mistake?").

Definition missing_type : Val :=
  VError PlainError
    ("createFromAction::Invalid Action - the passed action object does not have a "
     ++ quoted "type" ++ " property").

(** The analytics event [createFromAction] sends for an action. *)
Definition action_handled (ext : Externals) (action : Val) : Event :=
  SendAnalytics (component_of ext action)
    (<["message" := VStr (ToString ext (component_of ext action)
                          ++ " action was handled by the SDK")]>
       (<["subtype" := prop ext action "type"]>
          {["type" := VStr (ANALYTICS_ACTION_STR ext)]})).

(** ** A concrete deployment

    One instance of the collaborators, on which the statements below are
    exercised: the live and test endpoints, a session service that
    answers the session [CS-ok], refuses [CS-down] and leaves any other
    waiting, and a merchant whose callback 7 resolves with [Authorised]. *)

Definition live_url : string := "https://checkoutshopper-live.adyen.com/checkoutshopper/".
Definition test_url : string := "https://checkoutshopper-test.adyen.com/checkoutshopper/".

Definition sample_resolve (env api : Val) : string :=
  match api with
  | VStr s => if String.eqb s EmptyString then
                (if is_str env "live" then live_url else test_url)
              else s
  | _ => if is_str env "live" then live_url else test_url
  end.

Definition eur (n : Z) : Val :=
  VObj (<["value" := VNum n]> {["currency" := VStr "EUR"]}).

Definition sample_sessionResponse : Obj :=
  <["id" := VStr "CS-ok"]>
    (<["amount" := eur 1000]>
       (<["shopperLocale" := VStr "nl-NL"]>
          (<["countryCode" := VStr "NL"]>
             {["paymentMethods" := VObj {["paymentMethods" := VNull]}]}))).

Definition session_down : Val :=
  VError (AdyenCheckoutError "NETWORK_ERROR") "ERROR: Invalid ClientKey".

Definition sample_setupSession (s : Session) (_ : Obj) : Res Obj :=
  if is_str (session_raw s) "CS-ok" then Ok sample_sessionResponse
  else if is_str (session_raw s) "CS-down" then Throw session_down
  else Never.

Definition authorised (by_ : string) : Val :=
  VObj (<["resultCode" := VStr "Authorised"]> {["via" := VStr by_]}).

Definition sample_session_submitDetails (s : Session) (_ : Val) : Res Val :=
  if is_str (session_raw s) "CS-ok" then Ok (authorised "session")
  else if is_str (session_raw s) "CS-down" then Throw session_down
  else Never.

Definition sample_merchant (f : nat) (_ : Val) : Res Val :=
  if Nat.eqb f 7 then Ok (authorised "merchant") else Never.

Definition sample_verify (response : Val) : Res Val :=
  match response with
  | VObj o => if is_str (get o "resultCode") "Refused" then Throw response
              else Ok response
  | _ => Throw response
  end.

Definition deployment (node_env : string) : Externals :=
  mkExternals sample_resolve sample_resolve (fun env => sample_resolve env VUndefined)
    sample_setupSession sample_session_submitDetails sample_merchant
    Ok sample_verify (fun response => response) (fun o => o)
    "threeDS2" "en-US" "Action" (VStr node_env)
    (fun v => match v with VStr s => quoted s | _ => "{}" end)
    (fun _ => "function () { [native code] }") (fun _ _ => VUndefined).

Definition development : Externals := deployment "development".
Definition production : Externals := deployment "production".

Definition build : Metadata :=
  mkMetadata (VStr "6.0.0") (VStr "abc123") (VStr "main") (VStr "b-1") (VStr "umd").

Definition fresh_page : World := mkWorld build None ∅ 0 [].

(** A core as the constructor leaves it, with the given options and
    session. *)
Definition core_with (o : Obj) (s : option Session) : Core :=
  mkCore s None None o test_url test_url test_url [].

Definition ok_session : Session := mkSession (VStr "CS-ok") (VStr "test_KEY") test_url.
Definition down_session : Session := mkSession (VStr "CS-down") (VStr "test_KEY") test_url.

(** Configurations and instances the statements are exercised on. *)
Definition mismatched_props : Obj :=
  <["clientKey" := VStr "test_ABC"]> {["environment" := VStr "live"]}.

Definition test_props : Obj := {["clientKey" := VStr "test_ABC"]}.

Definition dutch : Obj := {["countryCode" := VStr "NL"]}.

Definition with_onError : Obj := {["onError" := VFun 3]}.

Definition paid_in_part : Obj :=
  {["order" := VObj (<["pspReference" := VStr "P1"]>
                       {["remainingAmount" := eur 250]})]}.

Definition order_without_remainder : Obj :=
  {["order" := VObj {["pspReference" := VStr "P1"]}]}.

Definition both_pathways : Obj :=
  <["onAdditionalDetails" := VFun 7]> {["onPaymentCompleted" := VFun 1]}.

Definition redirect_details : Val := VObj {["redirectResult" := VStr "X3XtfGC7"]}.

Definition whole_response : Val :=
  VObj (<["action" := VObj {["type" := VStr "redirect"]}]>
          {["resultCode" := VStr "RedirectShopper"]}).

Definition ideal_redirect : Val :=
  VObj (<["type" := VStr "redirect"]> {["paymentMethodType" := VStr "ideal"]}).

Definition unknown_action : Val := VObj {["type" := VStr "unknownType"]}.

(** The instance and the page after [initialize] on the [dutch]
    configuration, in a development and in a production build. *)
Definition initialized (ext : Externals) : Core * World :=
  snd (initialize ext (core_with dutch None, fresh_page)).

(** ** More ways to read a run *)

(** Several events at once. *)
Definition emits (evs : list Event) (w : World) : World :=
  mkWorld (metadata w) (window_AdyenWebMetadata w) (registry w) (next_ref w)
          (log w ++ evs).

(** The fields of the instance only the constructor assigns. *)
Definition same_wiring (c c' : Core) : Prop :=
  session c' = session c
  ∧ loadingContext c' = loadingContext c
  ∧ cdnContext c' = cdnContext c
  ∧ analyticsContext c' = analyticsContext c.

(** The parts of the page no method of the instance writes after
    construction, the allocator and the log apart. *)
Definition same_page (w w' : World) : Prop :=
  metadata w' = metadata w
  ∧ window_AdyenWebMetadata w' = window_AdyenWebMetadata w
  ∧ registry w' = registry w.

(** The loading context the constructor resolves from the caller's
    configuration. *)
Definition resolved_loadingContext (ext : Externals) (props : Obj) : string :=
  resolveEnvironment ext (get props "environment")
    (opt_prop ext (get props "environmentUrls") "api").


(** The warning about the option only Drop-in supports. *)
Definition legacy_option_warning : string :=
  "WARNING:  " ++ quoted "paymentMethodsConfiguration"
  ++ " is supported only by Drop-in.".

Definition french : Obj := {["locale" := VStr "fr-FR"]}.

Definition belgian : Obj :=
  <["countryCode" := VStr "BE"]> {["clientKey" := VStr "test_ABC"]}.

Definition migrated_from_v5 : Obj :=
  <["countryCode" := VStr "NL"]>
    {["paymentMethodsConfiguration" := VObj {["card" := VObj ∅]}]}.

Definition own_methods : Obj :=
  {["paymentMethodsResponse" := VObj {["paymentMethods" := VStr "mine"]}]}.

Definition card_element : UIElement := mkUIElement 11 1 ∅.
Definition ideal_element : UIElement := mkUIElement 12 2 ∅.

Definition with_session_option : Obj := {["session" := VStr "CS-ok"]}.

(** An initialised instance with two mounted elements. *)
Definition mounted : Core * World :=
  (with_components [card_element; ideal_element]
     (fst (initialized development)),
   snd (initialized development)).

(** The settlement that reaches the two payment callbacks: the chosen
    promise's, sanitized and then verified. *)
Definition verified (ext : Externals) (settlement : Res Val) : Res Val :=
  match settlement with
  | Ok raw =>
      match sanitizeResponse ext raw with
      | Ok sanitized => verifyPaymentDidNotFail ext sanitized
      | Throw e => Throw e
      | Never => Never
      end
  | Throw e => Throw e
  | Never => Never
  end.

(** An optional callback as the configuration types it: absent, or a
    function. *)
Definition callback_or_absent (v : Val) : Prop :=
  nullish v = true ∨ ∃ f, v = VFun f.

(** The page after the callback [name] of the configuration, if it is a
    function, has been called with [v]. *)
Definition notified (name : string) (c : Core) (v : Val) (w : World) : World :=
  match get (options c) name with
  | VFun g => emit_in (Called name g [v]) w
  | _ => w
  end.

(** A computation that leaves the instance and the allocator alone. *)
Definition quiet {A} (m : M A) : Prop :=
  ∀ c w, fst (snd (m (c, w))) = c
         ∧ next_ref (snd (snd (m (c, w)))) = next_ref w.

Definition with_all_callbacks : Obj :=
  <["onAdditionalDetails" := VFun 7]>
    (<["onPaymentCompleted" := VFun 1]>
       (<["onPaymentFailed" := VFun 2]> {["onError" := VFun 3]})).

Definition session_callbacks : Obj :=
  <["onPaymentFailed" := VFun 2]> {["onError" := VFun 3]}.

(** ** The PayPal element ([components/PayPal/Paypal.tsx])

    The element keeps the payment data of the last action and the two
    settling functions of the promise its last [handleSubmit] returned.
    A promise is known by its number; what the element asks of its base
    class and of those promises is recorded in the order it happens. *)

Inductive PaypalEvent : Type :=
| OnSubmit
| ResolveCalled (promise : nat) (token : Val)
| RejectCalled (promise : nat) (reason : Val)
| HandleError (error : Val)
| HandleAdditionalDetails (state : Val).

(** [paymentData], [resolve] and [reject] start as [null] ([None] for
    the two functions); [promises] counts the promises created. *)
Record PaypalElement : Type := mkPaypalElement {
  paymentData : Val;
  resolve : option nat;
  reject : option nat;
  promises : nat;
  heard : list PaypalEvent
}.

Definition new_PaypalElement : PaypalElement :=
  mkPaypalElement VNull None None 0 [].

Definition hear (ev : PaypalEvent) (el : PaypalElement) : PaypalElement :=
  mkPaypalElement (paymentData el) (resolve el) (reject el) (promises el)
    (heard el ++ [ev]).

Definition with_paymentData (v : Val) (el : PaypalElement) : PaypalElement :=
  mkPaypalElement v (resolve el) (reject el) (promises el) (heard el).

Definition PaypalElement_type : string := "paypal".
Definition PaypalElement_subtype : string := "sdk".

Definition formatData : Val :=
  VObj {["paymentMethod" :=
           VObj (<["type" := VStr PaypalElement_type]>
                   {["subtype" := VStr PaypalElement_subtype]})]}.

Definition isValid : bool := true.

Section PaypalModel.

Context (ext : Externals).

(** [this.data.paymentMethod.type]: the [data] getter belongs to the
    [UIElement] base class, outside this file; the type it reports is a
    string. *)
Context (data_paymentMethod_type : string).

Definition updateWithAction (action : Val) (el : PaypalElement)
  : Res Val * PaypalElement :=
  if nullish action
  then (Throw (VError TypeError
                 "Cannot read properties of undefined (reading 'paymentMethodType')"),
        el)
  else if negb (is_str (prop ext action "paymentMethodType")
                  data_paymentMethod_type)
  then (Throw (VError PlainError "Invalid Action"), el)
  else
    let el1 :=
      if truthy (prop ext action "paymentData")
      then with_paymentData (prop ext action "paymentData") el
      else el in
    let sdkData := prop ext action "sdkData" in
    if truthy sdkData && truthy (prop ext sdkData "token")
    then match resolve el1 with
         | Some p => (Ok VNull, hear (ResolveCalled p (prop ext sdkData "token")) el1)
         | None => (Throw (VError TypeError "this.resolve is not a function"), el1)
         end
    else match reject el1 with
         | Some p =>
             (Ok VNull,
              hear (RejectCalled p (VError PlainError "No token was provided")) el1)
         | None => (Throw (VError TypeError "this.reject is not a function"), el1)
         end.

Definition handleAction (action : Val) (el : PaypalElement)
  : Res Val * PaypalElement :=
  updateWithAction action el.

End PaypalModel.

Definition handleCancel (el : PaypalElement) : PaypalElement :=
  hear (HandleError (VError (AdyenCheckoutError "CANCEL") EmptyString)) el.

Definition handleComplete (details : Val) (el : PaypalElement) : PaypalElement :=
  hear (HandleAdditionalDetails
          (VObj {["data" :=
                    VObj (<["details" := details]>
                            {["paymentData" := paymentData el]})]}))
    el.

(** [handleSubmit] returns the promise it creates. *)
Definition handleSubmit (el : PaypalElement) : nat * PaypalElement :=
  (promises el,
   mkPaypalElement (paymentData el) (Some (promises el)) (Some (promises el))
     (S (promises el)) (heard el ++ [OnSubmit])).

Definition submit (el : PaypalElement) : PaypalElement :=
  hear (HandleError
          (VError (AdyenCheckoutError "DEVELOPER_ERROR")
             "Calling submit() is not supported for this payment method"))
    el.

Definition paypal_order (token : string) : Val :=
  VObj (<["paymentMethodType" := VStr "paypal"]>
          (<["paymentData" := VStr "Ab02b4c0"]>
             {["sdkData" := VObj {["token" := VStr token]}]})).

Definition paypal_without_token : Val :=
  VObj (<["paymentMethodType" := VStr "paypal"]> {["sdkData" := VObj ∅]}).

(** ** The playground's currency table ([config/getCurrency.js]) *)

Definition currencies : gmap string string :=
  list_to_map
    [("AR", "ARS"); ("AU", "AUD"); ("BR", "BRL"); ("CA", "CAD"); ("CH", "CHF");
     ("CN", "CNY"); ("CZ", "CZK"); ("DK", "DKK"); ("GB", "GBP"); ("HK", "HKD");
     ("HR", "HRK"); ("HU", "HUN"); ("ID", "IDR"); ("IN", "INR"); ("IS", "ISK");
     ("JP", "JPY"); ("KR", "KRW"); ("MG", "MGA"); ("MX", "MXN"); ("MY", "MYR");
     ("NO", "NOK"); ("NZ", "NZD"); ("PH", "PHP"); ("PL", "PLN"); ("RO", "RON");
     ("RU", "RUB"); ("SE", "SEK"); ("SG", "SGD"); ("SK", "SKK"); ("TH", "THB");
     ("TW", "TWD"); ("US", "USD"); ("VN", "VND"); ("LA", "LAK"); ("RS", "RSD");
     ("default", "EUR")].

(** [currencies[key]]: an own entry of the table, else what the object
    inherits under that name ([Object_prototype] holds the members every
    object literal inherits, such as [toString]). *)
Definition currencies_member (Object_prototype : Obj) (key : string) : Val :=
  match currencies !! key with
  | Some currency => VStr currency
  | None => get Object_prototype key
  end.

(** [getCurrency(countryCode)], on the property key the country code is
    used as. *)
Definition getCurrency (Object_prototype : Obj) (countryCode : string) : Val :=
  js_or (currencies_member Object_prototype countryCode)
        (currencies_member Object_prototype "default").

Definition sample_Object_prototype : Obj :=
  <["toString" := VFun 100]> {["constructor" := VFun 101]}.

(** ** Chunk file names of the ESM build ([rollup] configuration) *)

(** [s] without its first [n] characters. *)
Fixpoint skip (n : nat) (s : string) : string :=
  match n, s with
  | O, _ => s
  | S n', String _ s' => skip n' s'
  | S _, EmptyString => EmptyString
  end.

(** [s.replace(pattern, replacement)] for a string pattern and a
    replacement without [$]: the first occurrence is replaced. *)
Fixpoint replace (s pattern replacement : string) : string :=
  if String.prefix pattern s
  then replacement ++ skip (String.length pattern) s
  else match s with
       | EmptyString => EmptyString
       | String a s' => String a (replace s' pattern replacement)
       end.

(** [entryFileNames(chunkInfo)], on [chunkInfo.name]; both outputs of
    the build use this same function. *)
Definition entryFileNames (name : string) : string :=
  if includes name "node_modules"
  then replace name "node_modules" "external" ++ ".js"
  else "[name].js".

(** ** Strings and maps *)

Lemma append_cons (a : ascii) (p q : string) :
  String a p ++ q = String a (p ++ q).
Proof. reflexivity. Qed.

Lemma prefix_iff_append (p s : string) :
  String.prefix p s = true ↔ ∃ post, s = p ++ post.
Proof.
  revert s; induction p as [|a p IH]; intros s.
  - destruct s; simpl; split; eauto.
  - destruct s as [|b s]; simpl.
    + split; [discriminate | intros [post H]; discriminate].
    + destruct (Ascii.ascii_dec a b) as [->|Hne].
      * rewrite IH.
        split; intros [post H]; exists post; rewrite append_cons in *; congruence.
      * split; [discriminate|].
        intros [post H]; rewrite append_cons in H; congruence.
Qed.

Lemma includes_nil (sub : string) :
  includes EmptyString sub = String.prefix sub EmptyString || false.
Proof. reflexivity. Qed.

Lemma includes_cons (a : ascii) (s sub : string) :
  includes (String a s) sub = String.prefix sub (String a s) || includes s sub.
Proof. reflexivity. Qed.

(** [includes] is the substring test. *)
Lemma includes_iff_substring (s sub : string) :
  includes s sub = true ↔ ∃ pre post, s = pre ++ sub ++ post.
Proof.
  induction s as [|a s IH].
  - rewrite includes_nil, orb_false_r, prefix_iff_append. split.
    + intros [post H]. exists EmptyString, post. exact H.
    + intros [[|b pre] [post H]]; [eauto | discriminate].
  - rewrite includes_cons, orb_true_iff, prefix_iff_append, IH. split.
    + intros [[post H] | (pre & post & H)].
      * exists EmptyString, post. exact H.
      * exists (String a pre), post. rewrite append_cons. congruence.
    + intros ([|b pre] & post & H).
      * left. eauto.
      * right. exists pre, post. rewrite append_cons in H. congruence.
Qed.

Lemma prefix_substr4 (mode key : string) :
  mode = "test" ∨ mode = "live" →
  String.prefix mode key = true →
  String.substring 0 4 key = mode.
Proof.
  intros Hmode Hp. apply String.prefix_correct in Hp.
  destruct Hmode; subst mode; exact Hp.
Qed.

Lemma lookup_merge_options (current incoming : Obj) (k : string) :
  k ≠ "locale" →
  merge_options current incoming !! k
  = match incoming !! k with
    | Some v => Some v
    | None => current !! k
    end.
Proof.
  intros Hk. unfold merge_options.
  rewrite lookup_insert_ne by congruence.
  destruct (incoming !! k) as [v|] eqn:E.
  - rewrite lookup_union_l' by (rewrite E; eauto). exact E.
  - apply lookup_union_r. exact E.
Qed.

Lemma get_merge_options (current incoming : Obj) (k : string) :
  k ≠ "locale" →
  get (merge_options current incoming) k
  = match incoming !! k with
    | Some v => v
    | None => get current k
    end.
Proof.
  intros Hk. unfold get at 1. rewrite lookup_merge_options by exact Hk.
  destruct (incoming !! k); reflexivity.
Qed.

Lemma get_merge_options_locale (current incoming : Obj) :
  get (merge_options current incoming) "locale"
  = js_or (get incoming "locale") (get current "locale").
Proof. unfold merge_options, get at 1. by rewrite lookup_insert_eq. Qed.

(** The options the constructor starts from are the caller's, with
    [exposeLibraryMetadata] defaulted. *)
Lemma get_initial_options (props : Obj) (k : string) :
  k ≠ "locale" → k ≠ "exposeLibraryMetadata" →
  get (initial_options props) k = get props k.
Proof.
  intros Hl He. unfold initial_options.
  rewrite get_merge_options by exact Hl.
  unfold get. rewrite lookup_empty.
  destruct (props !! k) as [v|] eqn:E.
  - rewrite lookup_union_l' by (rewrite E; eauto). by rewrite E.
  - rewrite lookup_union_r by exact E.
    by rewrite lookup_singleton_ne.
Qed.

Lemma get_initial_options_expose (props : Obj) :
  get (initial_options props) "exposeLibraryMetadata"
  = match props !! "exposeLibraryMetadata" with
    | Some v => v
    | None => VBool true
    end.
Proof.
  unfold initial_options. rewrite get_merge_options by discriminate.
  destruct (props !! "exposeLibraryMetadata") as [v|] eqn:E.
  - rewrite lookup_union_l' by (rewrite E; eauto). by rewrite E.
  - rewrite lookup_union_r by exact E. by rewrite lookup_singleton_eq.
Qed.

(** ** The configuration merge *)

(** C9. [setOptions] is a shallow merge of the incoming options over
    the existing ones: every key other than [locale] takes the incoming
    entry when there is one and keeps the existing entry otherwise,
    while [locale] is the incoming locale when that is truthy and the
    existing locale otherwise; nothing else of the instance or the host
    changes. [update] starts with this merge. *)
Theorem setOptions_shallow_merge_keeps_locale
    (ext : Externals) (incoming : Obj) (c : Core) (w : World) :
  ∃ c',
    setOptions incoming (c, w) = (Ok tt, (c', w))
    ∧ (∀ k, k ≠ "locale" →
         options c' !! k
         = match incoming !! k with
           | Some v => Some v
           | None => options c !! k
           end)
    ∧ get (options c') "locale"
      = (if truthy (get incoming "locale")
         then get incoming "locale"
         else get (options c) "locale")
    ∧ with_options (options c) c' = c
    ∧ update ext incoming (c, w)
      = bind (initialize ext)
          (fun _ => bind this (fun c1 =>
             forEach (components c1)
               (fun el => emit (ElementUpdate el incoming))))
          (c', w).
Proof.
  exists (with_options (merge_options (options c) incoming) c).
  split; [reflexivity|].
  split; [intros k Hk; apply lookup_merge_options; exact Hk|].
  split; [apply get_merge_options_locale|].
  split; [by destruct c | reflexivity].
Qed.

(** ** The constructor *)

(** C2. When the configured [clientKey] starts with [test] or [live]
    and the loading context resolved from the configuration does not
    contain that same word, the constructor throws an
    [IMPLEMENTATION_ERROR] checkout error. It does so synchronously: the
    constructor's outcome is the exception and the host is exactly as it
    was, with no session set up and no exchange started. *)
Theorem constructor_rejects_mismatched_clientKey
    (ext : Externals) (props : Obj) (w : World) (key mode : string) :
  get props "clientKey" = VStr key →
  mode = "test" ∨ mode = "live" →
  String.prefix mode key = true →
  (¬ ∃ pre post,
       resolveEnvironment ext (get props "environment")
         (opt_prop ext (get props "environmentUrls") "api")
       = pre ++ mode ++ post) →
  ∃ message,
    constructor ext props w = (Throw (ImplementationError message), w).
Proof.
  intros Hkey Hmode Hprefix Hcontext.
  unfold constructor.
  rewrite !get_initial_options by discriminate.
  rewrite Hkey. cbn [clientKey_substr].
  rewrite (prefix_substr4 mode key Hmode Hprefix).
  cbn [ToString].
  assert (is_str (VStr mode) "test" || is_str (VStr mode) "live" = true) as ->
    by (destruct Hmode; subst mode; reflexivity).
  destruct (includes _ mode) eqn:Hinc.
  - apply includes_iff_substring in Hinc. contradiction.
  - cbn [negb andb]. eexists. reflexivity.
Qed.

(** C10. A constructor that returns has defaulted
    [exposeLibraryMetadata] to [true] when the caller did not set it,
    and has then published [Core.metadata] on the page's
    [AdyenWebMetadata] binding; it also publishes for a truthy value the
    caller passed, and leaves the page untouched exactly when the caller
    passed the key with a falsy value. *)
Theorem constructor_exposes_metadata_by_default
    (ext : Externals) (props : Obj) (w : World) (c : Core) (w' : World) :
  constructor ext props w = (Ok c, w') →
  (props !! "exposeLibraryMetadata" = None →
     get (options c) "exposeLibraryMetadata" = VBool true
     ∧ w' = publish_metadata w)
  ∧ (∀ v, props !! "exposeLibraryMetadata" = Some v → truthy v = true →
       w' = publish_metadata w)
  ∧ (∀ v, props !! "exposeLibraryMetadata" = Some v → truthy v = false →
       w' = w)
  ∧ (window_AdyenWebMetadata w' ≠ Some (metadata w) →
       ∃ v, props !! "exposeLibraryMetadata" = Some v ∧ truthy v = false).
Proof.
  unfold constructor. intros Hrun.
  destruct (clientKey_substr _) as [clientKeyType| |]; try discriminate.
  destruct (_ && _); [discriminate|].
  injection Hrun as <- <-. cbn [options].
  rewrite get_initial_options_expose.
  destruct (props !! "exposeLibraryMetadata") as [v|] eqn:E.
  - split; [discriminate|]. split; [|split].
    + intros v' [= <-] ->. reflexivity.
    + intros v' [= <-] ->. reflexivity.
    + intros Hw. exists v. split; [reflexivity|].
      destruct (truthy v); [|reflexivity].
      exfalso. apply Hw. reflexivity.
  - split; [intros _; split; reflexivity|].
    split; [discriminate|]. split; [discriminate|].
    intros Hw. exfalso. apply Hw. reflexivity.
Qed.

(** ** Initialisation, step by step *)

Section Steps.

Context (ext : Externals).

Lemma initializeCore_without_session (c : Core) (w : World) :
  session c = None →
  initializeCore ext (c, w) = (Ok tt, (listed VUndefined c, w)).
Proof.
  intros Hs. unfold initializeCore, bind, this. cbn [fst snd].
  rewrite Hs. reflexivity.
Qed.

Lemma initializeCore_session_resolved (c : Core) (w : World) s response :
  session c = Some s →
  session_setupSession ext s (options c) = Ok response →
  initializeCore ext (c, w)
  = (Ok tt, (folded ext response c, emit_in (SessionSetup s (options c)) w)).
Proof.
  intros Hs Hr. unfold initializeCore, bind, this. cbn [fst snd].
  rewrite Hs. unfold catch, bind, setupSession, bind, emit, modify_host, settle.
  cbn [fst snd]. rewrite Hr. reflexivity.
Qed.

Lemma initializeCore_session_rejected (c : Core) (w : World) s e :
  session c = Some s →
  session_setupSession ext s (options c) = Throw e →
  initializeCore ext (c, w)
  = (if truthy (get (options c) "onError")
     then match call "onError" (get (options c) "onError") [e]
                  (c, emit_in (SessionSetup s (options c)) w) with
          | (Ok _, st) => (Throw e, st)
          | (Throw e', st) => (Throw e', st)
          | (Never, st) => (Never, st)
          end
     else (Throw e, (c, emit_in (SessionSetup s (options c)) w))).
Proof.
  intros Hs Hr. unfold initializeCore, bind, this. cbn [fst snd].
  rewrite Hs. unfold catch, bind, setupSession, bind, emit, modify_host, settle.
  cbn [fst snd]. rewrite Hr. unfold this. cbn [fst snd].
  destruct (truthy _); reflexivity.
Qed.

Lemma initializeCore_session_pending (c : Core) (w : World) s :
  session c = Some s →
  session_setupSession ext s (options c) = Never →
  initializeCore ext (c, w)
  = (Never, (c, emit_in (SessionSetup s (options c)) w)).
Proof.
  intros Hs Hr. unfold initializeCore, bind, this. cbn [fst snd].
  rewrite Hs. unfold catch, bind, setupSession, bind, emit, modify_host, settle.
  cbn [fst snd]. rewrite Hr. reflexivity.
Qed.

Lemma get_localized (c : Core) (k : string) :
  k ≠ "locale" →
  get (options (localized ext c)) k = get (options c) k.
Proof.
  intros Hk. unfold localized. destruct (negb _); [|reflexivity].
  cbn [with_options options]. rewrite get_merge_options by exact Hk.
  rewrite lookup_singleton_ne by congruence. reflexivity.
Qed.

Lemma modules_localized (c : Core) : modules (localized ext c) = modules c.
Proof. unfold localized. destruct (negb _); reflexivity. Qed.

Lemma session_localized (c : Core) : session (localized ext c) = session c.
Proof. unfold localized. destruct (negb _); reflexivity. Qed.

Lemma get_folded (response : Obj) (c : Core) (k : string) :
  get (options (folded ext response c)) k
  = get (merge_options (options c) (session_fold ext (options c) response)) k.
Proof. reflexivity. Qed.

Lemma get_folded_countryCode (response : Obj) (c : Core) :
  get (options (folded ext response c)) "countryCode"
  = js_or (get (options c) "countryCode") (get response "countryCode").
Proof.
  rewrite get_folded, get_merge_options by discriminate.
  unfold session_fold. by rewrite lookup_insert_eq.
Qed.

Lemma get_folded_amount (response : Obj) (c : Core) :
  get (options (folded ext response c)) "amount"
  = if truthy (get (options c) "order")
    then prop ext (get (options c) "order") "remainingAmount"
    else get response "amount".
Proof.
  rewrite get_folded, get_merge_options by discriminate.
  unfold session_fold.
  rewrite !lookup_insert_ne by discriminate. by rewrite lookup_insert_eq.
Qed.

Lemma validateCoreConfiguration_run (c : Core) (w : World) :
  validateCoreConfiguration ext (c, w)
  = (if negb (truthy (get (options c) "countryCode"))
     then Throw countryCode_missing else Ok tt,
     (localized ext c, legacy_warned c w)).
Proof.
  unfold validateCoreConfiguration, bind, this. cbn [fst snd].
  unfold legacy_warned, localized.
  destruct (truthy (get (options c) "paymentMethodsConfiguration"));
    unfold emit, modify_host, ret; cbn [fst snd];
    destruct (negb (truthy (get (options c) "locale"))) eqn:Hl;
    unfold setOptions, modify_this; cbn [fst snd].
  all: try (cbn [with_options options];
            rewrite get_merge_options by discriminate;
            rewrite lookup_singleton_ne by discriminate).
  all: destruct (negb (truthy (get (options c) "countryCode"))); reflexivity.
Qed.

Lemma createCoreModules_again (c : Core) (w : World) m :
  modules c = Some m →
  createCoreModules ext (c, w) = (Ok tt, (c, rewarned ext w)).
Proof.
  intros Hm. unfold createCoreModules, bind, this. cbn [fst snd].
  rewrite Hm. unfold rewarned.
  destruct (is_str _ _); reflexivity.
Qed.

Lemma createCoreModules_first (c : Core) (w : World) :
  modules c = None →
  createCoreModules ext (c, w)
  = (Ok tt, (with_modules (new_modules (next_ref w) c w) c, alloc_in w)).
Proof.
  intros Hm. unfold createCoreModules, bind, this. cbn [fst snd].
  rewrite Hm. reflexivity.
Qed.

(** [initialize] in terms of its three steps. *)
Lemma initialize_steps (st : Core * World) :
  initialize ext st
  = match initializeCore ext st with
    | (Ok _, (c1, w1)) =>
        if negb (truthy (get (options c1) "countryCode"))
        then (Throw countryCode_missing, (localized ext c1, legacy_warned c1 w1))
        else createCoreModules ext (localized ext c1, legacy_warned c1 w1)
    | (Throw e, st1) => (Throw e, st1)
    | (Never, st1) => (Never, st1)
    end.
Proof.
  unfold initialize, bind.
  destruct (initializeCore ext st) as [[[]| |] [c1 w1]]; try reflexivity.
  rewrite validateCoreConfiguration_run.
  destruct (negb _); reflexivity.
Qed.

(** The first step never touches the modules, the session or the
    allocator, however the session exchange goes. *)
Lemma initializeCore_keeps (c : Core) (w : World) r c' w' :
  initializeCore ext (c, w) = (r, (c', w')) →
  modules c' = modules c ∧ session c' = session c ∧ next_ref w' = next_ref w.
Proof.
  destruct (session c) as [s|] eqn:Hs.
  - destruct (session_setupSession ext s (options c)) as [response|e|] eqn:Hr.
    + rewrite (initializeCore_session_resolved c w s response Hs Hr).
      intros [= <- <- <-]. by rewrite <- Hs.
    + rewrite (initializeCore_session_rejected c w s e Hs Hr).
      destruct (truthy _).
      * unfold call. destruct (get (options c) "onError");
          unfold throw, emit, modify_host; cbn [fst snd];
          intros [= <- <- <-]; by rewrite <- Hs.
      * intros [= <- <- <-]. by rewrite <- Hs.
    + rewrite (initializeCore_session_pending c w s Hs Hr).
      intros [= <- <- <-]. by rewrite <- Hs.
  - rewrite (initializeCore_without_session c w Hs).
    intros [= <- <- <-]. by rewrite <- Hs.
Qed.

(** A successful [initialize] leaves modules in place and a country
    code in the options. *)
Lemma initialize_ok_ready (c : Core) (w : World) c' w' :
  initialize ext (c, w) = (Ok tt, (c', w')) →
  (∃ m, modules c' = Some m)
  ∧ truthy (get (options c') "countryCode") = true.
Proof.
  rewrite initialize_steps.
  destruct (initializeCore ext (c, w)) as [[[]| |] [c1 w1]]; try discriminate.
  destruct (truthy (get (options c1) "countryCode")) eqn:Hcc;
    cbn [negb]; [|discriminate].
  destruct (modules (localized ext c1)) as [m|] eqn:Hm.
  - rewrite (createCoreModules_again _ _ m Hm). intros [= <- <-].
    split; [eauto|]. by rewrite get_localized.
  - rewrite (createCoreModules_first _ _ Hm). intros [= <- <-].
    split; [cbn; eauto|]. cbn [with_modules options].
    by rewrite get_localized.
Qed.

(** Once modules exist, no run of [initialize] replaces them. *)
Lemma initialize_keeps_modules (c : Core) (w : World) m r c' w' :
  modules c = Some m →
  initialize ext (c, w) = (r, (c', w')) →
  modules c' = Some m ∧ next_ref w' = next_ref w.
Proof.
  intros Hm. rewrite initialize_steps.
  destruct (initializeCore ext (c, w)) as [r1 [c1 w1]] eqn:H1.
  apply initializeCore_keeps in H1 as (Hm1 & _ & Hn1).
  rewrite Hm in Hm1.
  destruct r1 as [[]| |].
  - destruct (negb _).
    + intros [= <- <- <-]. rewrite modules_localized.
      split; [exact Hm1|]. unfold legacy_warned.
      destruct (truthy _); exact Hn1.
    + rewrite (createCoreModules_again _ _ m)
        by (by rewrite modules_localized).
      intros [= <- <- <-]. rewrite modules_localized.
      split; [exact Hm1|]. unfold rewarned, legacy_warned.
      destruct (is_str _ _), (truthy _); exact Hn1.
  - intros [= <- <- <-]. by split.
  - intros [= <- <- <-]. by split.
Qed.

End Steps.

(** ** Initialisation *)

(** C3. Without a session, [initialize] on a configuration whose
    [countryCode] is missing fails with an [IMPLEMENTATION_ERROR]
    checkout error. With a session whose setup answers with a country
    code, and none set by the caller, that country code becomes the
    configuration's and [initialize] succeeds. *)
Theorem initialize_needs_a_countryCode
    (ext : Externals) (c : Core) (w : World) :
  (session c = None →
   truthy (get (options c) "countryCode") = false →
   ∃ e c' w',
     initialize ext (c, w) = (Throw e, (c', w')) ∧ is_ImplementationError e)
  ∧ (∀ s response,
       session c = Some s →
       session_setupSession ext s (options c) = Ok response →
       truthy (get (options c) "countryCode") = false →
       truthy (get response "countryCode") = true →
       ∃ c' w',
         initialize ext (c, w) = (Ok tt, (c', w'))
         ∧ get (options c') "countryCode" = get response "countryCode").
Proof.
  split.
  - intros Hs Hcc. rewrite initialize_steps.
    rewrite (initializeCore_without_session ext c w Hs).
    cbn [listed with_paymentMethodsResponse options]. rewrite Hcc. cbn [negb].
    do 3 eexists. split; [reflexivity|]. eexists. reflexivity.
  - intros s response Hs Hr Hcc Hrc. rewrite initialize_steps.
    rewrite (initializeCore_session_resolved ext c w s response Hs Hr).
    rewrite get_folded_countryCode. unfold js_or. rewrite Hcc, Hrc. cbn [negb].
    destruct (modules (localized ext (folded ext response c))) as [m|] eqn:Hm.
    + rewrite (createCoreModules_again ext _ _ m Hm).
      do 2 eexists. split; [reflexivity|].
      rewrite get_localized by discriminate.
      rewrite get_folded_countryCode. unfold js_or. by rewrite Hcc.
    + rewrite (createCoreModules_first ext _ _ Hm).
      do 2 eexists. split; [reflexivity|]. cbn [with_modules options].
      rewrite get_localized by discriminate.
      rewrite get_folded_countryCode. unfold js_or. by rewrite Hcc.
Qed.

(** C4, as the code has it. In a session-backed [initialize], once the
    session setup has succeeded the configuration's [amount] is the
    session's amount unless the configuration holds an order, in which
    case it is that order's [remainingAmount], whatever that is (an
    order without one leaves the amount undefined). This holds after the
    session step and still holds when [initialize] has finished. *)
Theorem session_amount_yields_to_order
    (ext : Externals) (c : Core) (w : World) (s : Session) (response : Obj) :
  session c = Some s →
  session_setupSession ext s (options c) = Ok response →
  let effective :=
    if truthy (get (options c) "order")
    then prop ext (get (options c) "order") "remainingAmount"
    else get response "amount" in
  outcome (initializeCore ext (c, w)) = Ok tt
  ∧ get (options (final_core (initializeCore ext (c, w)))) "amount" = effective
  ∧ get (options (final_core (initialize ext (c, w)))) "amount" = effective.
Proof.
  intros Hs Hr effective. subst effective.
  rewrite initialize_steps.
  rewrite (initializeCore_session_resolved ext c w s response Hs Hr).
  split; [reflexivity|]. split; [apply get_folded_amount|].
  destruct (negb _).
  - unfold final_core. cbn [fst snd].
    rewrite get_localized by discriminate. apply get_folded_amount.
  - destruct (modules (localized ext (folded ext response c))) as [m|] eqn:Hm.
    + rewrite (createCoreModules_again ext _ _ m Hm).
      unfold final_core. cbn [fst snd].
      rewrite get_localized by discriminate. apply get_folded_amount.
    + rewrite (createCoreModules_first ext _ _ Hm).
      unfold final_core. cbn [fst snd with_modules options].
      rewrite get_localized by discriminate. apply get_folded_amount.
Qed.

(** C8. When the session setup fails during [initialize], the failure
    reaches the configured [onError] callback, once and with that very
    error, and [initialize] rejects with the same error; without an
    [onError] nothing is called and [initialize] rejects all the same.
    Nothing of the instance changes. *)
Theorem session_setup_failure_is_forwarded
    (ext : Externals) (c : Core) (w : World) (s : Session) (e : Val) :
  session c = Some s →
  session_setupSession ext s (options c) = Throw e →
  (∀ f, get (options c) "onError" = VFun f →
     initialize ext (c, w)
     = (Throw e,
        (c, emit_in (Called "onError" f [e])
              (emit_in (SessionSetup s (options c)) w))))
  ∧ (truthy (get (options c) "onError") = false →
     initialize ext (c, w)
     = (Throw e, (c, emit_in (SessionSetup s (options c)) w))).
Proof.
  intros Hs Hr. split.
  - intros f Hf. rewrite initialize_steps.
    rewrite (initializeCore_session_rejected ext c w s e Hs Hr).
    rewrite Hf. reflexivity.
  - intros Hf. rewrite initialize_steps.
    rewrite (initializeCore_session_rejected ext c w s e Hs Hr).
    rewrite Hf. reflexivity.
Qed.

(** C7, as the code has it. After a successful [initialize], a second
    [initialize] on the same instance keeps the very modules object of
    the first (same reference, same modules, nothing allocated),
    whatever its own outcome. Its module-creation step is a no-op that
    returns normally, and it logs the "already created" warning only
    when [NODE_ENV] is [development]; in any other build it logs
    nothing. The second call succeeds whenever its session step does,
    and then the host is as that step left it, plus the legacy-option
    warning when that option is set, plus the development-only warning. *)
Theorem initialize_twice_same_modules
    (ext : Externals) (c0 c1 c2 : Core) (w0 w1 w2 : World) (r : Res unit) :
  initialize ext (c0, w0) = (Ok tt, (c1, w1)) →
  initialize ext (c1, w1) = (r, (c2, w2)) →
  (∃ m, modules c1 = Some m ∧ modules c2 = Some m
        ∧ createCoreModules ext (c2, w2)
          = (Ok tt,
             (c2, if is_str (NODE_ENV ext) "development"
                  then emit_in
                         (ConsoleWarn "Core: Core modules are already created.") w2
                  else w2)))
  ∧ next_ref w2 = next_ref w1
  ∧ (session c1 = None
     ∨ (∃ s response,
          session c1 = Some s
          ∧ session_setupSession ext s (options c1) = Ok response) →
     r = Ok tt
     ∧ w2 = rewarned ext
              (legacy_warned (final_core (initializeCore ext (c1, w1)))
                 (final_world (initializeCore ext (c1, w1))))).
Proof.
  intros H1 H2.
  destruct (initialize_ok_ready ext _ _ _ _ H1) as ([m Hm] & Hcc).
  destruct (initialize_keeps_modules ext _ _ m _ _ _ Hm H2) as (Hm2 & Hn).
  split; [|split; [exact Hn|]].
  - exists m. split; [exact Hm|]. split; [exact Hm2|].
    apply (createCoreModules_again ext c2 w2 m Hm2).
  - intros Hsession. rewrite initialize_steps in H2.
    assert (∃ c' w', initializeCore ext (c1, w1) = (Ok tt, (c', w'))
                     ∧ modules c' = Some m
                     ∧ truthy (get (options c') "countryCode") = true)
      as (c' & w' & Hcore & Hm' & Hcc').
    { destruct Hsession as [Hs | (s & response & Hs & Hr)].
      - rewrite (initializeCore_without_session ext c1 w1 Hs).
        do 2 eexists. split; [reflexivity|]. split; [exact Hm|exact Hcc].
      - rewrite (initializeCore_session_resolved ext c1 w1 s response Hs Hr).
        do 2 eexists. split; [reflexivity|]. split; [exact Hm|].
        rewrite get_folded_countryCode. unfold js_or. by rewrite Hcc. }
    rewrite Hcore. rewrite Hcore, Hcc' in H2. cbn [negb] in H2.
    rewrite (createCoreModules_again ext _ _ m) in H2
      by (by rewrite modules_localized).
    injection H2 as <- <- <-. split; reflexivity.
Qed.

(** ** Submitting additional details *)

(** Run [submitDetails] up to the promise it chooses. *)
Ltac run_submit Hcb Hs :=
  unfold submitDetails, onAdditionalDetails_promise, session_promise,
    bind, this, emit, modify_host, ret;
  cbn [fst snd]; rewrite ?Hcb, ?Hs; cbn [truthy fst snd];
  rewrite ?Hcb, ?Hs; reflexivity.

Section Submission.

Context (ext : Externals).

Lemma submitDetails_no_pathway (c : Core) (w : World) (details : Val) :
  session c = None →
  truthy (get (options c) "onAdditionalDetails") = false →
  submitDetails ext details (c, w)
  = opt_call "onError" (get (options c) "onError") [no_pathway] (c, w).
Proof.
  intros Hs Hcb. run_submit Hcb Hs.
Qed.

(** With only the callback configured, its promise is the one
    post-processed. *)
Lemma submitDetails_callback_pathway (c : Core) (w : World) (details : Val) f :
  session c = None →
  get (options c) "onAdditionalDetails" = VFun f →
  submitDetails ext details (c, w)
  = detached (postProcess ext (merchant_settlement ext (VFun f) details))
      (c, emit_in (Called "onAdditionalDetails" f
                     [VObj {["data" := details]}; VUndefined]) w).
Proof.
  intros Hs Hcb. run_submit Hcb Hs.
Qed.

(** With only the session active, its promise is the one
    post-processed. *)
Lemma submitDetails_session_pathway (c : Core) (w : World) (details : Val) s :
  session c = Some s →
  truthy (get (options c) "onAdditionalDetails") = false →
  submitDetails ext details (c, w)
  = detached (postProcess ext (session_settlement ext s details))
      (c, emit_in (SessionSubmitDetails s details) w).
Proof.
  intros Hs Hcb. run_submit Hcb Hs.
Qed.

End Submission.

(** C1, where the code departs from it. With both an
    [onAdditionalDetails] callback and a session, [submitDetails] runs
    both pathways: it calls the callback and then starts the session
    exchange, and the promise it post-processes is the session's; how
    the merchant settles the callback's promise has no effect. *)
Theorem submitDetails_runs_both_pathways
    (ext : Externals) (c : Core) (w : World) (s : Session) (f : nat)
    (details : Val) :
  session c = Some s →
  get (options c) "onAdditionalDetails" = VFun f →
  submitDetails ext details (c, w)
  = detached (postProcess ext (session_settlement ext s details))
      (c, emit_in (SessionSubmitDetails s details)
            (emit_in (Called "onAdditionalDetails" f
                        [VObj {["data" := details]}; VUndefined]) w)).
Proof.
  intros Hs Hcb. run_submit Hcb Hs.
Qed.

(** C5, as the code has it. With neither an [onAdditionalDetails]
    callback nor a session, [submitDetails] returns normally and leaves
    the instance alone; a configured [onError] is called exactly once,
    with an [IMPLEMENTATION_ERROR] checkout error, and nothing else is
    called; when no [onError] is configured nothing is called at all. *)
Theorem submitDetails_without_pathway
    (ext : Externals) (c : Core) (w : World) (details : Val) :
  session c = None →
  truthy (get (options c) "onAdditionalDetails") = false →
  (∀ f, get (options c) "onError" = VFun f →
     ∃ e, is_ImplementationError e
          ∧ submitDetails ext details (c, w)
            = (Ok tt, (c, emit_in (Called "onError" f [e]) w))
          ∧ added w (final_world (submitDetails ext details (c, w)))
            = [Called "onError" f [e]])
  ∧ (nullish (get (options c) "onError") = true →
     submitDetails ext details (c, w) = (Ok tt, (c, w))).
Proof.
  intros Hs Hcb. rewrite (submitDetails_no_pathway ext c w details Hs Hcb).
  split.
  - intros f Hf. rewrite Hf. exists no_pathway.
    split; [eexists; reflexivity|]. split; [reflexivity|].
    unfold added, final_world, emit_in. cbn. by rewrite drop_app_length.
  - intros Hn. unfold opt_call. rewrite Hn. reflexivity.
Qed.

(** ** Dispatching actions *)

Lemma string_append_assoc (a b c : string) : (a ++ b) ++ c = a ++ b ++ c.
Proof.
  induction a as [|x a IH]; [reflexivity|].
  rewrite !append_cons. by rewrite IH.
Qed.

Lemma includes_inner (pre x post : string) :
  includes (pre ++ x ++ post) x = true.
Proof. apply includes_iff_substring. eauto. Qed.

(** What the message about an unknown component names, whatever the
    JSON rendering is. *)
Lemma unknown_component_names (ext : Externals) (action : Val) :
  includes (unknown_component ext action)
    (ToString ext (component_of ext action)) = true
  ∧ includes (unknown_component ext action)
      (ToString ext (prop ext action "type")) = true
  ∧ includes (unknown_component ext action) (JSON_stringify ext action) = true.
Proof.
  unfold unknown_component. split; [|split].
  - apply (includes_inner EmptyString).
  - rewrite <- string_append_assoc. apply includes_inner.
  - rewrite <- 3 string_append_assoc. apply includes_inner.
Qed.

(** C6. An action that is missing or has no [type] is refused with the
    "whole response" diagnostic when it has both an [action] and a
    [resultCode] property, and with the generic missing-type error
    otherwise; the two errors differ. On an initialised instance, an
    action whose component key has no registry entry makes
    [createFromAction] throw, after its analytics event: no element,
    null or other, is returned, and the message of the error contains
    the component key, the action's type and the raw action as JSON, so
    that a string key such as [ideal] is spelled out in it. *)
Theorem createFromAction_reports_caller_mistakes
    (ext : Externals) (c : Core) (w : World) (action : Val) (options_ : Obj) :
  (negb (truthy action) || negb (truthy (prop ext action "type")) = true →
   createFromAction ext action options_ (c, w)
   = (Throw (if hasOwnProperty action "action"
                && hasOwnProperty action "resultCode"
             then whole_response_passed
             else missing_type),
      (c, w)))
  ∧ whole_response_passed ≠ missing_type
  ∧ (∀ m,
       truthy action = true →
       truthy (prop ext action "type") = true →
       modules c = Some m →
       registry_getComponent (registry w) (component_of ext action) = None →
       ∃ message,
         createFromAction ext action options_ (c, w)
         = (Throw (VError PlainError message),
            (c, emit_in (action_handled ext action) w))
         ∧ (∀ key, component_of ext action = VStr key →
                   includes message key = true)
         ∧ includes message (ToString ext (component_of ext action)) = true
         ∧ includes message (ToString ext (prop ext action "type")) = true
         ∧ includes message (JSON_stringify ext action) = true).
Proof.
  split; [|split].
  - intros Hbad. unfold createFromAction. rewrite Hbad.
    destruct (_ && _); reflexivity.
  - intros H. vm_compute in H. discriminate H.
  - intros m Ha Ht Hm Hreg. exists (unknown_component ext action).
    destruct (unknown_component_names ext action) as (Hkey & Htype & Hraw).
    split; [|split; [|split; [exact Hkey|split; [exact Htype|exact Hraw]]]].
    + unfold createFromAction.
      rewrite Ha, Ht. cbn [negb orb].
      unfold bind, this, emit, modify_host, getCorePropsForComponent, bind, this.
      cbn [fst snd]. rewrite Hm. cbn [fst snd]. rewrite Hm.
      unfold ret, getComponentForAction, bind, host.
      cbn [fst snd registry emit_in].
      rewrite Hreg. reflexivity.
    + intros key Hk. rewrite Hk in Hkey. exact Hkey.
Qed.

(** ** The statements at work *)

Lemma constructor_rejects_mismatched_clientKey_witness :
  ∃ message,
    constructor development mismatched_props fresh_page
    = (Throw (ImplementationError message), fresh_page).
Proof.
  apply (constructor_rejects_mismatched_clientKey
           development mismatched_props fresh_page "test_ABC" "test").
  - reflexivity.
  - left. reflexivity.
  - reflexivity.
  - intros Hsub. apply includes_iff_substring in Hsub.
    vm_compute in Hsub. discriminate Hsub.
Defined.

Lemma constructor_exposes_metadata_by_default_witness :
  get (initial_options test_props) "exposeLibraryMetadata" = VBool true
  ∧ window_AdyenWebMetadata (snd (constructor development test_props fresh_page))
    = Some build.
Proof.
  destruct (constructor_exposes_metadata_by_default development test_props
              fresh_page
              (mkCore None None None (initial_options test_props)
                 test_url test_url test_url [])
              (publish_metadata fresh_page))
    as (Hdefault & _).
  - vm_compute. reflexivity.
  - destruct Hdefault as [Hoption Hpage]; [reflexivity|].
    split; [exact Hoption|]. vm_compute. reflexivity.
Defined.

Lemma initialize_needs_a_countryCode_witness :
  (∃ e c' w',
     initialize development (core_with ∅ None, fresh_page) = (Throw e, (c', w'))
     ∧ is_ImplementationError e)
  ∧ (∃ c' w',
       initialize development (core_with ∅ (Some ok_session), fresh_page)
       = (Ok tt, (c', w'))
       ∧ get (options c') "countryCode" = VStr "NL").
Proof.
  split.
  - apply (initialize_needs_a_countryCode development
             (core_with ∅ None) fresh_page); reflexivity.
  - apply (proj2 (initialize_needs_a_countryCode development
                    (core_with ∅ (Some ok_session)) fresh_page)
             ok_session sample_sessionResponse); reflexivity.
Defined.

Lemma session_amount_yields_to_order_witness :
  get (options (final_core
         (initialize development
            (core_with paid_in_part (Some ok_session), fresh_page)))) "amount"
  = eur 250.
Proof.
  apply (session_amount_yields_to_order development
           (core_with paid_in_part (Some ok_session)) fresh_page
           ok_session sample_sessionResponse); reflexivity.
Defined.

(** C4 fails as stated: an order without a remaining amount is held,
    the session returns an amount, and the configuration's amount ends
    up undefined instead of the session's. *)
Lemma session_amount_lost_to_order_without_remainder :
  let c := core_with order_without_remainder (Some ok_session) in
  let after := final_core (initialize development (c, fresh_page)) in
  hasOwnProperty (get (options c) "order") "remainingAmount" = false
  ∧ session_setupSession development ok_session (options c)
    = Ok sample_sessionResponse
  ∧ get sample_sessionResponse "amount" = eur 1000
  ∧ get (options after) "amount" = VUndefined
  ∧ get (options after) "amount" ≠ get sample_sessionResponse "amount".
Proof.
  cbv zeta. repeat split; try (vm_compute; reflexivity).
  intros H. vm_compute in H. discriminate H.
Qed.

Lemma session_setup_failure_is_forwarded_witness :
  initialize development (core_with with_onError (Some down_session), fresh_page)
  = (Throw session_down,
     (core_with with_onError (Some down_session),
      emit_in (Called "onError" 3 [session_down])
        (emit_in (SessionSetup down_session with_onError) fresh_page))).
Proof.
  apply (proj1 (session_setup_failure_is_forwarded development
                  (core_with with_onError (Some down_session)) fresh_page
                  down_session session_down eq_refl eq_refl) 3).
  reflexivity.
Defined.

Lemma initialize_twice_same_modules_witness :
  let first := initialize development (core_with dutch None, fresh_page) in
  let second := initialize development (snd first) in
  modules (final_core second) = modules (final_core first)
  ∧ outcome second = Ok tt
  ∧ added (final_world first) (final_world second)
    = [ConsoleWarn "Core: Core modules are already created."].
Proof.
  cbv zeta.
  destruct (initialize_twice_same_modules development
              (core_with dutch None)
              (final_core (initialize development (core_with dutch None, fresh_page)))
              (final_core (initialize development (initialized development)))
              fresh_page
              (final_world (initialize development (core_with dutch None, fresh_page)))
              (final_world (initialize development (initialized development)))
              (Ok tt))
    as ((m & Hm1 & Hm2 & _) & _ & Hok).
  - vm_compute. reflexivity.
  - vm_compute. reflexivity.
  - split; [|split].
    + change (snd (initialize development (core_with dutch None, fresh_page)))
        with (initialized development).
      rewrite Hm2. symmetry. exact Hm1.
    + vm_compute. reflexivity.
    + vm_compute. reflexivity.
Defined.

(** C7 fails as stated: in a production build the second [initialize]
    succeeds and keeps the modules, and logs no warning at all. *)
Lemma initialize_twice_is_silent_in_production :
  let first := initialize production (core_with dutch None, fresh_page) in
  let second := initialize production (snd first) in
  outcome first = Ok tt
  ∧ outcome second = Ok tt
  ∧ modules (final_core second) = modules (final_core first)
  ∧ added (final_world first) (final_world second) = []
  ∧ ConsoleWarn "Core: Core modules are already created."
    ∉ log (final_world second).
Proof.
  cbv zeta. repeat split; try (vm_compute; reflexivity).
  intros Hin. vm_compute in Hin. inversion Hin.
Qed.

Lemma submitDetails_runs_both_pathways_witness :
  submitDetails development redirect_details
    (core_with both_pathways (Some ok_session), fresh_page)
  = detached
      (postProcess development
         (session_settlement development ok_session redirect_details))
      (core_with both_pathways (Some ok_session),
       emit_in (SessionSubmitDetails ok_session redirect_details)
         (emit_in (Called "onAdditionalDetails" 7
                     [VObj {["data" := redirect_details]}; VUndefined])
            fresh_page)).
Proof.
  apply (submitDetails_runs_both_pathways development
           (core_with both_pathways (Some ok_session)) fresh_page
           ok_session 7 redirect_details); reflexivity.
Defined.

(** The run of C1's failing input: the merchant's callback is called
    and would resolve with its own result, the session exchange is
    started as well, and [onPaymentCompleted] receives the session's
    result. *)
Lemma submitDetails_both_configured_run :
  merchant_settles development 7 redirect_details = Ok (authorised "merchant")
  ∧ submitDetails development redirect_details
      (core_with both_pathways (Some ok_session), fresh_page)
    = (Ok tt,
       (core_with both_pathways (Some ok_session),
        mkWorld build None ∅ 0
          [Called "onAdditionalDetails" 7
             [VObj {["data" := redirect_details]}; VUndefined];
           SessionSubmitDetails ok_session redirect_details;
           Called "onPaymentCompleted" 1 [authorised "session"]])).
Proof. split; vm_compute; reflexivity. Qed.

Lemma submitDetails_without_pathway_witness :
  ∃ e, is_ImplementationError e
       ∧ submitDetails development redirect_details
           (core_with with_onError None, fresh_page)
         = (Ok tt,
            (core_with with_onError None,
             emit_in (Called "onError" 3 [e]) fresh_page))
       ∧ added fresh_page
           (final_world (submitDetails development redirect_details
                           (core_with with_onError None, fresh_page)))
         = [Called "onError" 3 [e]].
Proof.
  apply (proj1 (submitDetails_without_pathway development
                  (core_with with_onError None) fresh_page redirect_details
                  eq_refl eq_refl) 3).
  reflexivity.
Defined.

(** C5 fails as stated: with no [onError] configured, and neither
    pathway available, [submitDetails] returns and [onError] has been
    called zero times, not once. *)
Lemma submitDetails_without_onError_calls_nothing :
  let run := submitDetails development redirect_details
               (core_with ∅ None, fresh_page) in
  session (core_with ∅ None) = None
  ∧ get (options (core_with ∅ None)) "onAdditionalDetails" = VUndefined
  ∧ outcome run = Ok tt
  ∧ log (final_world run) = []
  ∧ count_calls "onError" (log (final_world run)) ≠ 1.
Proof.
  cbv zeta. repeat split; try (vm_compute; reflexivity).
  intros H. vm_compute in H. discriminate H.
Qed.

Lemma createFromAction_reports_caller_mistakes_witness :
  createFromAction development whole_response ∅ (initialized development)
  = (Throw whole_response_passed, initialized development)
  ∧ createFromAction development (VObj ∅) ∅ (initialized development)
    = (Throw missing_type, initialized development)
  ∧ (∃ message,
       createFromAction development ideal_redirect ∅ (initialized development)
       = (Throw (VError PlainError message),
          (fst (initialized development),
           emit_in (action_handled development ideal_redirect)
             (snd (initialized development))))
       ∧ includes message "ideal" = true
       ∧ includes message "redirect" = true)
  ∧ (∃ message,
       createFromAction development unknown_action ∅ (initialized development)
       = (Throw (VError PlainError message),
          (fst (initialized development),
           emit_in (action_handled development unknown_action)
             (snd (initialized development))))
       ∧ includes message "unknownType" = true).
Proof.
  rewrite (surjective_pairing (initialized development)).
  split; [|split; [|split]].
  - etransitivity;
      [apply (proj1 (createFromAction_reports_caller_mistakes development
                       (fst (initialized development))
                       (snd (initialized development)) whole_response ∅));
       reflexivity
      |reflexivity].
  - etransitivity;
      [apply (proj1 (createFromAction_reports_caller_mistakes development
                       (fst (initialized development))
                       (snd (initialized development)) (VObj ∅) ∅));
       reflexivity
      |reflexivity].
  - destruct (createFromAction_reports_caller_mistakes development
                (fst (initialized development))
                (snd (initialized development)) ideal_redirect ∅)
      as (_ & _ & Hmiss).
    destruct (Hmiss (new_modules 0
                       (core_with
                          (merge_options dutch {["locale" := VStr "en-US"]})
                          None)
                       fresh_page))
      as (message & Hrun & Hkey & _ & Htype & _);
      try (vm_compute; reflexivity).
    exists message. split; [exact Hrun|].
    split; [apply Hkey; reflexivity | exact Htype].
  - destruct (createFromAction_reports_caller_mistakes development
                (fst (initialized development))
                (snd (initialized development)) unknown_action ∅)
      as (_ & _ & Hmiss).
    destruct (Hmiss (new_modules 0
                       (core_with
                          (merge_options dutch {["locale" := VStr "en-US"]})
                          None)
                       fresh_page))
      as (message & Hrun & _ & _ & Htype & _);
      try (vm_compute; reflexivity).
    exists message. split; [exact Hrun | exact Htype].
Defined.

(** * Further properties of [core.ts] *)

(** ** The constructor, when it accepts *)

Lemma substr4_prefix (mode key : string) :
  mode = "test" ∨ mode = "live" →
  String.substring 0 4 key = mode →
  String.prefix mode key = true.
Proof.
  intros Hmode Hsub. apply String.prefix_correct.
  destruct Hmode; subst mode; exact Hsub.
Qed.

Lemma is_str_eq (s lit : string) : is_str (VStr s) lit = true ↔ s = lit.
Proof. unfold is_str. apply String.eqb_eq. Qed.

(** X1. The constructor accepts every configuration without a session
    whose [clientKey] is absent, or is a string that either does not
    start with [test] or [live] or starts with the one the resolved
    loading context contains. No session object is constructed for such
    a configuration, and the instance it returns holds the caller's
    options with the default added, the three resolved contexts, no
    session, no modules, no payment methods and no components; the page
    is touched by the metadata publication alone. *)
Theorem constructor_accepts_consistent_clientKey
    (ext : Externals) (props : Obj) (w : World) :
  truthy (get props "session") = false →
  (nullish (get props "clientKey") = true
   ∨ ∃ key, get props "clientKey" = VStr key
       ∧ ∀ mode, mode = "test" ∨ mode = "live" →
           String.prefix mode key = true →
           ∃ pre post, resolved_loadingContext ext props = pre ++ mode ++ post) →
  constructor ext props w
  = (Ok (mkCore None None None (initial_options props)
           (resolved_loadingContext ext props)
           (resolveCDNEnvironment ext
              (js_or (get props "resourceEnvironment") (get props "environment"))
              (opt_prop ext (get props "environmentUrls") "api"))
           (resolveAnalyticsEnvironment ext (get props "environment"))
           []),
     if truthy (get (initial_options props) "exposeLibraryMetadata")
     then publish_metadata w else w).
Proof.
  intros Hsession Hkey. unfold constructor, resolved_loadingContext in *.
  rewrite !get_initial_options by discriminate.
  rewrite Hsession.
  destruct Hkey as [Hnull | (key & Hk & Hmatch)].
  - destruct (get props "clientKey"); try discriminate Hnull; reflexivity.
  - rewrite Hk. cbn [clientKey_substr ToString].
    destruct (is_str (VStr (String.substring 0 4 key)) "test") eqn:Ht.
    + apply is_str_eq in Ht.
      destruct (Hmatch "test") as (pre & post & Hlc);
        [by left | apply substr4_prefix; [by left | exact Ht] |].
      rewrite Ht.
      assert (includes
                (resolveEnvironment ext (get props "environment")
                   (opt_prop ext (get props "environmentUrls") "api")) "test"
              = true) as -> by (apply includes_iff_substring; eauto).
      reflexivity.
    + destruct (is_str (VStr (String.substring 0 4 key)) "live") eqn:Hl;
        [|reflexivity].
      apply is_str_eq in Hl.
      destruct (Hmatch "live") as (pre & post & Hlc);
        [by right | apply substr4_prefix; [by right | exact Hl] |].
      rewrite Hl.
      assert (includes
                (resolveEnvironment ext (get props "environment")
                   (opt_prop ext (get props "environmentUrls") "api")) "live"
              = true) as -> by (apply includes_iff_substring; eauto).
      reflexivity.
Qed.

Lemma constructor_accepts_consistent_clientKey_witness :
  constructor development test_props fresh_page
  = (Ok (mkCore None None None (initial_options test_props)
           test_url test_url test_url []),
     publish_metadata fresh_page).
Proof.
  etransitivity;
    [apply (constructor_accepts_consistent_clientKey
              development test_props fresh_page)
    |vm_compute; reflexivity].
  - reflexivity.
  - right. exists "test_ABC". split; [reflexivity|].
    intros mode [-> | ->] Hp.
    + exists "https://checkoutshopper-", ".adyen.com/checkoutshopper/".
      reflexivity.
    + vm_compute in Hp. discriminate Hp.
Defined.

(** ** What initialisation leaves alone *)

Section Frames.

Context (ext : Externals).

Lemma same_page_refl (w : World) : same_page w w.
Proof. by repeat split. Qed.

Lemma same_page_emit (ev : Event) (w w' : World) :
  same_page w w' → same_page w (emit_in ev w').
Proof. intros H. exact H. Qed.

Lemma same_page_emits (evs : list Event) (w w' : World) :
  same_page w w' → same_page w (emits evs w').
Proof. intros H. exact H. Qed.

Lemma same_page_legacy_warned (c : Core) (w w' : World) :
  same_page w w' → same_page w (legacy_warned c w').
Proof. intros H. unfold legacy_warned. destruct (truthy _); exact H. Qed.

Lemma same_page_rewarned (w w' : World) :
  same_page w w' → same_page w (rewarned ext w').
Proof. intros H. unfold rewarned. destruct (is_str _ _); exact H. Qed.

Lemma same_wiring_refl (c : Core) : same_wiring c c.
Proof. by repeat split. Qed.

Lemma same_wiring_localized (c c' : Core) :
  same_wiring c c' → same_wiring c (localized ext c').
Proof. intros H. unfold localized. destruct (negb _); exact H. Qed.

Lemma components_localized (c : Core) :
  components (localized ext c) = components c.
Proof. unfold localized. destruct (negb _); reflexivity. Qed.

Lemma paymentMethodsResponse_localized (c : Core) :
  paymentMethodsResponse (localized ext c) = paymentMethodsResponse c.
Proof. unfold localized. destruct (negb _); reflexivity. Qed.

Lemma lookup_localized (c : Core) (k : string) :
  k ≠ "locale" →
  options (localized ext c) !! k = options c !! k.
Proof.
  intros Hk. unfold localized. destruct (negb _); [|reflexivity].
  cbn [with_options options]. rewrite lookup_merge_options by exact Hk.
  by rewrite lookup_singleton_ne by congruence.
Qed.

(** The session step assigns nothing but the options and the payment
    methods, and writes nothing on the page but its log. *)
Lemma initializeCore_frame (c : Core) (w : World) r c' w' :
  initializeCore ext (c, w) = (r, (c', w')) →
  same_wiring c c' ∧ components c' = components c ∧ same_page w w'.
Proof.
  destruct (session c) as [s|] eqn:Hs.
  - destruct (session_setupSession ext s (options c)) as [response|e|] eqn:Hr.
    + rewrite (initializeCore_session_resolved ext c w s response Hs Hr).
      intros [= <- <- <-]. by repeat split.
    + rewrite (initializeCore_session_rejected ext c w s e Hs Hr).
      destruct (truthy _).
      * unfold call. destruct (get (options c) "onError");
          unfold throw, emit, modify_host; cbn [fst snd];
          intros [= <- <- <-]; by repeat split.
      * intros [= <- <- <-]. by repeat split.
    + rewrite (initializeCore_session_pending ext c w s Hs Hr).
      intros [= <- <- <-]. by repeat split.
  - rewrite (initializeCore_without_session ext c w Hs).
    intros [= <- <- <-]. by repeat split.
Qed.

Lemma initialize_frame (c : Core) (w : World) r c' w' :
  initialize ext (c, w) = (r, (c', w')) →
  same_wiring c c' ∧ components c' = components c ∧ same_page w w'.
Proof.
  rewrite initialize_steps.
  destruct (initializeCore ext (c, w)) as [r1 [c1 w1]] eqn:H1.
  apply initializeCore_frame in H1 as (Hw & Hc & Hp).
  destruct r1 as [[]| |].
  - destruct (negb _).
    + intros [= <- <- <-].
      split; [by apply same_wiring_localized|].
      split; [by rewrite components_localized|].
      by apply same_page_legacy_warned.
    + destruct (modules (localized ext c1)) as [m|] eqn:Hm.
      * rewrite (createCoreModules_again ext _ _ m Hm).
        intros [= <- <- <-].
        split; [by apply same_wiring_localized|].
        split; [by rewrite components_localized|].
        by apply same_page_rewarned, same_page_legacy_warned.
      * rewrite (createCoreModules_first ext _ _ Hm).
        intros [= <- <- <-].
        split; [by apply (same_wiring_localized c c1)|].
        split; [cbn [with_modules components]; by rewrite components_localized|].
        by apply (same_page_legacy_warned c1 w w1).
  - intros [= <- <- <-]. auto.
  - intros [= <- <- <-]. auto.
Qed.

End Frames.

(** ** The configuration after initialisation *)

Section Configuration.

Context (ext : Externals).

(** Once the session step is through, [initialize] ends with the
    options of that step after locale defaulting, and with its payment
    methods, whether validation then throws or modules are created. *)
Lemma initialize_after_session_step (c : Core) (w : World) c1 w1 :
  initializeCore ext (c, w) = (Ok tt, (c1, w1)) →
  options (final_core (initialize ext (c, w))) = options (localized ext c1)
  ∧ paymentMethodsResponse (final_core (initialize ext (c, w)))
    = paymentMethodsResponse c1
  ∧ outcome (initialize ext (c, w))
    = (if truthy (get (options c1) "countryCode")
       then Ok tt else Throw countryCode_missing).
Proof.
  intros H1. rewrite initialize_steps, H1.
  destruct (truthy (get (options c1) "countryCode")); cbn [negb].
  - destruct (modules (localized ext c1)) as [m|] eqn:Hm.
    + rewrite (createCoreModules_again ext _ _ m Hm).
      unfold final_core, outcome. cbn [fst snd].
      by rewrite paymentMethodsResponse_localized.
    + rewrite (createCoreModules_first ext _ _ Hm).
      unfold final_core, outcome.
      cbn [fst snd with_modules options paymentMethodsResponse].
      by rewrite paymentMethodsResponse_localized.
  - unfold final_core, outcome. cbn [fst snd].
    by rewrite paymentMethodsResponse_localized.
Qed.

Lemma locale_localized (c : Core) :
  get (options (localized ext c)) "locale"
  = if truthy (get (options c) "locale")
    then get (options c) "locale"
    else js_or (VStr (DEFAULT_LOCALE ext)) (get (options c) "locale").
Proof.
  unfold localized. destruct (truthy (get (options c) "locale")) eqn:Hl;
    cbn [negb]; [reflexivity|].
  cbn [with_options options]. rewrite get_merge_options_locale.
  unfold get at 1. by rewrite lookup_singleton_eq.
Qed.

Lemma get_folded_locale (response : Obj) (c : Core) :
  get (options (folded ext response c)) "locale"
  = if truthy (get (options c) "locale")
    then get (options c) "locale"
    else js_or (get response "shopperLocale") (get (options c) "locale").
Proof.
  rewrite get_folded, get_merge_options_locale.
  unfold session_fold, get at 1.
  rewrite lookup_insert_ne by discriminate. rewrite lookup_insert_eq.
  cbn [default from_option id]. unfold js_or.
  destruct (truthy (get (options c) "locale")) eqn:Hl; cbv iota.
  - by rewrite Hl.
  - destruct (truthy (get response "shopperLocale")) eqn:Hs; cbv iota;
      by rewrite ?Hs, ?Hl.
Qed.

Lemma lookup_folded (response : Obj) (c : Core) (k : string) :
  k ≠ "amount" → k ≠ "locale" → k ≠ "countryCode" →
  options (folded ext response c) !! k
  = if String.eqb k "shopperLocale" || String.eqb k "paymentMethods"
    then options c !! k
    else match response !! k with
         | Some v => Some v
         | None => options c !! k
         end.
Proof.
  intros Ha Hl Hc.
  change (options (folded ext response c))
    with (merge_options (options c) (session_fold ext (options c) response)).
  rewrite lookup_merge_options by exact Hl.
  unfold session_fold. rewrite !lookup_insert_ne by congruence.
  destruct (String.eqb_spec k "paymentMethods") as [->|Hp].
  { rewrite lookup_delete_eq, orb_true_r. reflexivity. }
  rewrite lookup_delete_ne by congruence.
  rewrite lookup_delete_ne by congruence.
  destruct (String.eqb_spec k "shopperLocale") as [->|Hs].
  { rewrite lookup_delete_eq. reflexivity. }
  rewrite !lookup_delete_ne by congruence. reflexivity.
Qed.

Lemma paymentMethodsResponse_folded (response : Obj) (c : Core) :
  paymentMethodsResponse (folded ext response c)
  = Some (mkPaymentMethods
            (js_or (get (options (folded ext response c)) "paymentMethodsResponse")
               (get response "paymentMethods"))
            (options (folded ext response c))).
Proof. reflexivity. Qed.

End Configuration.

(** X2. After [initialize] has passed its session step, the locale of
    the configuration is the caller's when that is truthy, else the
    session's [shopperLocale] when there is a session and that is
    truthy, else [DEFAULT_LOCALE]; this holds whether or not the
    country-code validation then fails. With a non-empty
    [DEFAULT_LOCALE] the locale is therefore never left falsy. *)
Theorem initialize_resolves_locale
    (ext : Externals) (c : Core) (w : World) :
  let caller := get (options c) "locale" in
  let final := get (options (final_core (initialize ext (c, w)))) "locale" in
  (session c = None →
   final = (if truthy caller then caller
            else js_or (VStr (DEFAULT_LOCALE ext)) caller))
  ∧ (∀ s response,
       session c = Some s →
       session_setupSession ext s (options c) = Ok response →
       final = (if truthy caller then caller
                else if truthy (get response "shopperLocale")
                     then get response "shopperLocale"
                     else js_or (VStr (DEFAULT_LOCALE ext)) caller))
  ∧ (DEFAULT_LOCALE ext ≠ EmptyString →
     outcome (initializeCore ext (c, w)) = Ok tt →
     truthy final = true).
Proof.
  cbv zeta. split; [|split].
  - intros Hs.
    destruct (initialize_after_session_step ext c w _ _
                (initializeCore_without_session ext c w Hs)) as (-> & _).
    rewrite locale_localized. reflexivity.
  - intros s response Hs Hr.
    destruct (initialize_after_session_step ext c w _ _
                (initializeCore_session_resolved ext c w s response Hs Hr))
      as (-> & _).
    rewrite locale_localized, get_folded_locale. unfold js_or.
    destruct (truthy (get (options c) "locale")) eqn:Hl; cbv iota.
    + by rewrite Hl.
    + destruct (truthy (get response "shopperLocale")) eqn:Hsl; cbv iota;
        by rewrite ?Hsl, ?Hl.
  - intros Hdefault Hok.
    destruct (initializeCore ext (c, w)) as [r1 [c1 w1]] eqn:H1.
    unfold outcome in Hok. cbn [fst] in Hok. subst r1.
    destruct (initialize_after_session_step ext c w _ _ H1) as (-> & _).
    rewrite locale_localized.
    destruct (truthy (get (options c1) "locale")) eqn:Hl; [exact Hl|].
    assert (truthy (VStr (DEFAULT_LOCALE ext)) = true) as Ht.
    { cbn [truthy].
      destruct (String.eqb_spec (DEFAULT_LOCALE ext) EmptyString) as [He|_];
        [contradiction|reflexivity]. }
    unfold js_or. rewrite Ht. exact Ht.
Qed.

Lemma initialize_resolves_locale_witness :
  get (options (final_core
         (initialize development (core_with dutch None, fresh_page)))) "locale"
  = VStr "en-US"
  ∧ get (options (final_core
           (initialize development
              (core_with ∅ (Some ok_session), fresh_page)))) "locale"
    = VStr "nl-NL"
  ∧ truthy (get (options (final_core
              (initialize development
                 (core_with french (Some ok_session), fresh_page)))) "locale")
    = true.
Proof.
  split; [|split].
  - etransitivity;
      [apply (proj1 (initialize_resolves_locale development
                       (core_with dutch None) fresh_page));
       reflexivity
      |reflexivity].
  - etransitivity;
      [apply (proj1 (proj2 (initialize_resolves_locale development
                              (core_with ∅ (Some ok_session)) fresh_page))
                ok_session sample_sessionResponse); reflexivity
      |reflexivity].
  - apply (proj2 (proj2 (initialize_resolves_locale development
                           (core_with french (Some ok_session)) fresh_page))).
    + discriminate.
    + vm_compute. reflexivity.
Defined.

(** X3. A successful session setup folds the response over the
    caller's options key by key: apart from [amount], [locale] and
    [countryCode], which have rules of their own, every field of the
    response replaces the caller's option of the same name and the
    caller's other options stay, except that the response's
    [shopperLocale] and [paymentMethods] are never copied into the
    options. *)
Theorem session_response_folds_over_options
    (ext : Externals) (c : Core) (w : World) (s : Session) (response : Obj)
    (k : string) :
  session c = Some s →
  session_setupSession ext s (options c) = Ok response →
  k ≠ "amount" → k ≠ "locale" → k ≠ "countryCode" →
  options (final_core (initialize ext (c, w))) !! k
  = if String.eqb k "shopperLocale" || String.eqb k "paymentMethods"
    then options c !! k
    else match response !! k with
         | Some v => Some v
         | None => options c !! k
         end.
Proof.
  intros Hs Hr Ha Hl Hc.
  destruct (initialize_after_session_step ext c w _ _
              (initializeCore_session_resolved ext c w s response Hs Hr))
    as (-> & _).
  rewrite lookup_localized by exact Hl.
  by apply lookup_folded.
Qed.

Lemma session_response_folds_over_options_witness :
  options (final_core
    (initialize development (core_with belgian (Some ok_session), fresh_page)))
    !! "id" = Some (VStr "CS-ok")
  ∧ options (final_core
      (initialize development (core_with belgian (Some ok_session), fresh_page)))
      !! "clientKey" = Some (VStr "test_ABC")
  ∧ options (final_core
      (initialize development (core_with belgian (Some ok_session), fresh_page)))
      !! "shopperLocale" = None.
Proof.
  split; [|split].
  - etransitivity;
      [apply (session_response_folds_over_options development
                (core_with belgian (Some ok_session)) fresh_page ok_session
                sample_sessionResponse "id"); (reflexivity || discriminate)
      |reflexivity].
  - etransitivity;
      [apply (session_response_folds_over_options development
                (core_with belgian (Some ok_session)) fresh_page ok_session
                sample_sessionResponse "clientKey");
       (reflexivity || discriminate)
      |reflexivity].
  - etransitivity;
      [apply (session_response_folds_over_options development
                (core_with belgian (Some ok_session)) fresh_page ok_session
                sample_sessionResponse "shopperLocale");
       (reflexivity || discriminate)
      |reflexivity].
Defined.

(** X4. A country code the caller configured wins over the session's:
    when the configuration's [countryCode] is truthy and the session
    step succeeds (or there is no session), [initialize] succeeds and
    the configuration keeps the caller's country code, whatever country
    code the session response carries. *)
Theorem configured_countryCode_wins
    (ext : Externals) (c : Core) (w : World) :
  truthy (get (options c) "countryCode") = true →
  (session c = None
   ∨ ∃ s response,
       session c = Some s
       ∧ session_setupSession ext s (options c) = Ok response) →
  outcome (initialize ext (c, w)) = Ok tt
  ∧ get (options (final_core (initialize ext (c, w)))) "countryCode"
    = get (options c) "countryCode".
Proof.
  intros Hcc [Hs | (s & response & Hs & Hr)].
  - destruct (initialize_after_session_step ext c w _ _
                (initializeCore_without_session ext c w Hs))
      as (-> & _ & ->).
    cbn [listed with_paymentMethodsResponse options]. rewrite Hcc.
    split; [reflexivity|]. by rewrite get_localized.
  - destruct (initialize_after_session_step ext c w _ _
                (initializeCore_session_resolved ext c w s response Hs Hr))
      as (-> & _ & ->).
    rewrite get_localized by discriminate.
    rewrite get_folded_countryCode. unfold js_or. rewrite Hcc.
    split; [by rewrite Hcc | reflexivity].
Qed.

Lemma configured_countryCode_wins_witness :
  outcome (initialize development
             (core_with belgian (Some ok_session), fresh_page)) = Ok tt
  ∧ get (options (final_core
           (initialize development
              (core_with belgian (Some ok_session), fresh_page)))) "countryCode"
    = VStr "BE".
Proof.
  destruct (configured_countryCode_wins development
              (core_with belgian (Some ok_session)) fresh_page)
    as (Hok & Hcc).
  - reflexivity.
  - right. exists ok_session, sample_sessionResponse. split; reflexivity.
  - split; [exact Hok|]. rewrite Hcc. reflexivity.
Defined.

(** X5. The payment-methods catalogue [initialize] leaves is built from
    the configured [paymentMethodsResponse] when that is truthy, and
    only otherwise from the session's [paymentMethods] (from nothing
    when there is no session); it is built with the options as the
    session step left them. A session field named
    [paymentMethodsResponse] would be folded in first, hence the
    premise on the response. *)
Theorem paymentMethods_prefer_configuration
    (ext : Externals) (c : Core) (w : World) :
  (session c = None →
   paymentMethodsResponse (final_core (initialize ext (c, w)))
   = Some (mkPaymentMethods
             (js_or (get (options c) "paymentMethodsResponse") VUndefined)
             (options c)))
  ∧ (∀ s response,
       session c = Some s →
       session_setupSession ext s (options c) = Ok response →
       response !! "paymentMethodsResponse" = None →
       paymentMethodsResponse (final_core (initialize ext (c, w)))
       = Some (mkPaymentMethods
                 (js_or (get (options c) "paymentMethodsResponse")
                    (get response "paymentMethods"))
                 (options (final_core (initializeCore ext (c, w)))))).
Proof.
  split.
  - intros Hs.
    destruct (initialize_after_session_step ext c w _ _
                (initializeCore_without_session ext c w Hs))
      as (_ & -> & _).
    reflexivity.
  - intros s response Hs Hr Hnone.
    destruct (initialize_after_session_step ext c w _ _
                (initializeCore_session_resolved ext c w s response Hs Hr))
      as (_ & -> & _).
    rewrite (initializeCore_session_resolved ext c w s response Hs Hr).
    unfold final_core. cbn [fst snd].
    rewrite paymentMethodsResponse_folded. do 3 f_equal.
    unfold get at 1.
    rewrite (lookup_folded ext response c "paymentMethodsResponse")
      by discriminate.
    rewrite Hnone. reflexivity.
Qed.

Lemma paymentMethods_prefer_configuration_witness :
  (pm_response <$>
     paymentMethodsResponse
       (final_core (initialize development
                      (core_with own_methods (Some ok_session), fresh_page))))
  = Some (VObj {["paymentMethods" := VStr "mine"]})
  ∧ (pm_response <$>
       paymentMethodsResponse
         (final_core (initialize development
                        (core_with ∅ (Some ok_session), fresh_page))))
    = Some (get sample_sessionResponse "paymentMethods").
Proof.
  split.
  - rewrite (proj2 (paymentMethods_prefer_configuration development
                      (core_with own_methods (Some ok_session)) fresh_page)
               ok_session sample_sessionResponse eq_refl eq_refl eq_refl).
    reflexivity.
  - rewrite (proj2 (paymentMethods_prefer_configuration development
                      (core_with ∅ (Some ok_session)) fresh_page)
               ok_session sample_sessionResponse eq_refl eq_refl eq_refl).
    reflexivity.
Defined.

(** X6. The legacy option [paymentMethodsConfiguration] is not fatal:
    on a session-less instance with a country code, [initialize]
    succeeds and creates the modules as usual, and the page's log gains
    exactly the warning that the option is supported only by Drop-in. *)
Theorem legacy_option_only_warns
    (ext : Externals) (c : Core) (w : World) :
  session c = None →
  modules c = None →
  truthy (get (options c) "countryCode") = true →
  truthy (get (options c) "paymentMethodsConfiguration") = true →
  ∃ c', initialize ext (c, w)
        = (Ok tt, (c', alloc_in (emit_in (ConsoleWarn legacy_option_warning) w)))
        ∧ (∃ m, modules c' = Some m).
Proof.
  intros Hs Hm Hcc Hlegacy. rewrite initialize_steps.
  rewrite (initializeCore_without_session ext c w Hs).
  cbn [listed with_paymentMethodsResponse options]. rewrite Hcc. cbn [negb].
  rewrite createCoreModules_first
    by (rewrite modules_localized; exact Hm).
  assert (legacy_warned (listed VUndefined c) w
          = emit_in (ConsoleWarn legacy_option_warning) w) as ->.
  { unfold legacy_warned.
    cbn [listed with_paymentMethodsResponse options]. by rewrite Hlegacy. }
  eexists. split; [reflexivity|]. cbn [with_modules modules]. eauto.
Qed.

Lemma legacy_option_only_warns_witness :
  outcome (initialize development (core_with migrated_from_v5 None, fresh_page))
  = Ok tt
  ∧ log (final_world
           (initialize development (core_with migrated_from_v5 None, fresh_page)))
    = [ConsoleWarn legacy_option_warning].
Proof.
  destruct (legacy_option_only_warns development
              (core_with migrated_from_v5 None) fresh_page)
    as (c' & Hrun & _); try reflexivity.
  rewrite Hrun. split; reflexivity.
Defined.

(** X7. The first successful [initialize] builds the modules from the
    configuration as validation left it: [i18n] and analytics receive
    the locale after session fold and defaulting, analytics the folded
    amount and the bundle type of [Core.metadata], the risk module the
    whole options plus the loading context, the resources module the
    CDN context, the screen-reader panel the spread of [srConfig]. The
    modules object takes the next free reference and nothing else is
    allocated. *)
Theorem first_initialize_builds_modules
    (ext : Externals) (c c' : Core) (w w' : World) :
  modules c = None →
  initialize ext (c, w) = (Ok tt, (c', w')) →
  ∃ m, modules c' = Some m
       ∧ modules_ref m = next_ref w
       ∧ next_ref w' = S (next_ref w)
       ∧ i18n m = (get (options c') "locale", get (options c') "translations",
                   get (options c') "translationFile")
       ∧ get (analytics m) "locale" = get (options c') "locale"
       ∧ get (analytics m) "amount" = get (options c') "amount"
       ∧ get (analytics m) "clientKey" = get (options c') "clientKey"
       ∧ get (analytics m) "bundleType" = bundleType (metadata w)
       ∧ risk m = <["loadingContext" := VStr (loadingContext c)]> (options c')
       ∧ resources m = cdnContext c
       ∧ srPanel m = spread (get (options c') "srConfig").
Proof.
  intros Hm. rewrite initialize_steps.
  destruct (initializeCore ext (c, w)) as [r1 [c1 w1]] eqn:H1.
  destruct (initializeCore_keeps ext _ _ _ _ _ H1) as (Hm1 & _ & Hn1).
  destruct (initializeCore_frame ext _ _ _ _ _ H1)
    as ((_ & Hlc & Hcdn & _) & _ & (Hmeta & _)).
  destruct r1 as [[]| |]; try discriminate.
  destruct (negb _); [discriminate|].
  rewrite createCoreModules_first
    by (rewrite modules_localized, Hm1; exact Hm).
  intros [= <- <-]. eexists. split; [reflexivity|].
  assert (next_ref (legacy_warned c1 w1) = next_ref w) as Hn
    by (unfold legacy_warned; destruct (truthy _); exact Hn1).
  assert (metadata (legacy_warned c1 w1) = metadata w) as Hmd
    by (unfold legacy_warned; destruct (truthy _); exact Hmeta).
  assert (loadingContext (localized ext c1) = loadingContext c) as Hl
    by (unfold localized; destruct (negb _); exact Hlc).
  assert (cdnContext (localized ext c1) = cdnContext c) as Hc
    by (unfold localized; destruct (negb _); exact Hcdn).
  cbn [with_modules options new_modules modules_ref i18n analytics risk
       resources srPanel alloc_in next_ref].
  rewrite Hn, Hmd, Hl, Hc.
  repeat (split; [reflexivity|]).
  repeat (split;
          [unfold get at 1;
           rewrite ?lookup_insert_eq, ?lookup_insert_ne by discriminate;
           try rewrite lookup_insert_eq; reflexivity|]).
  repeat (split; [reflexivity|]). reflexivity.
Qed.

Lemma first_initialize_builds_modules_witness :
  ∃ m, modules (final_core
                  (initialize development
                     (core_with belgian (Some ok_session), fresh_page)))
       = Some m
       ∧ modules_ref m = 0
       ∧ i18n m = (VStr "nl-NL", VUndefined, VUndefined)
       ∧ get (analytics m) "amount" = eur 1000
       ∧ get (risk m) "loadingContext" = VStr test_url.
Proof.
  destruct (first_initialize_builds_modules development
              (core_with belgian (Some ok_session))
              (final_core (initialize development
                             (core_with belgian (Some ok_session), fresh_page)))
              fresh_page
              (final_world (initialize development
                              (core_with belgian (Some ok_session), fresh_page))))
    as (m & Hm & Href & _ & Hi18n & _ & Hamount & _ & _ & Hrisk & _).
  - reflexivity.
  - vm_compute. reflexivity.
  - exists m. split; [exact Hm|]. split; [exact Href|].
    split; [rewrite Hi18n; vm_compute; reflexivity|].
    split; [rewrite Hamount; vm_compute; reflexivity|].
    rewrite Hrisk. vm_compute. reflexivity.
Defined.

(** ** [update], [remove] and the mounted elements *)

Section Elements.

Context (ext : Externals).

Lemma emits_nil (w : World) : emits [] w = w.
Proof. destruct w. unfold emits. cbn. by rewrite app_nil_r. Qed.

Lemma emits_cons (ev : Event) (evs : list Event) (w : World) :
  emits (ev :: evs) w = emits evs (emit_in ev w).
Proof. unfold emits, emit_in. cbn. by rewrite <- app_assoc. Qed.

Lemma forEach_emit {A} (f : A → Event) (l : list A) (c : Core) (w : World) :
  forEach l (fun x => emit (f x)) (c, w) = (Ok tt, (c, emits (map f l) w)).
Proof.
  revert w. induction l as [|x l IH]; intros w.
  - cbn. by rewrite emits_nil.
  - cbn [forEach map]. unfold bind, emit at 1, modify_host. cbn [fst snd].
    rewrite IH. by rewrite emits_cons.
Qed.

(** [update] is the merge, then [initialize], then one update per
    element the instance holds. *)
Lemma update_steps (incoming : Obj) (c : Core) (w : World) :
  update ext incoming (c, w)
  = match initialize ext
            (with_options (merge_options (options c) incoming) c, w) with
    | (Ok _, (c1, w1)) =>
        (Ok tt,
         (c1, emits (map (fun el => ElementUpdate el incoming) (components c1))
                w1))
    | (Throw e, st) => (Throw e, st)
    | (Never, st) => (Never, st)
    end.
Proof.
  unfold update, bind, setOptions, modify_this. cbn [fst snd].
  destruct (initialize ext _) as [[[]| |] [c1 w1]]; try reflexivity.
  unfold this. cbn [fst snd]. apply forEach_emit.
Qed.

Lemma elem_of_log_emit_in (x ev : Event) (w : World) :
  x ∈ log (emit_in ev w) ↔ x ∈ log w ∨ x = ev.
Proof.
  unfold emit_in. cbn [log]. rewrite elem_of_app, list_elem_of_singleton.
  reflexivity.
Qed.

Lemma elem_of_log_emits (x : Event) (evs : list Event) (w : World) :
  x ∈ log (emits evs w) ↔ x ∈ log w ∨ x ∈ evs.
Proof. unfold emits. cbn [log]. apply elem_of_app. Qed.

(** Without a session, [initialize] starts no session exchange. *)
Lemma initialize_without_session_is_local
    (c : Core) (w : World) (s : Session) (o : Obj) :
  session c = None →
  SessionSetup s o ∈ log (final_world (initialize ext (c, w))) →
  SessionSetup s o ∈ log w.
Proof.
  intros Hs. rewrite initialize_steps.
  rewrite (initializeCore_without_session ext c w Hs).
  assert (∀ c0, SessionSetup s o ∈ log (legacy_warned c0 w) →
                SessionSetup s o ∈ log w) as Hlegacy.
  { intros c0. unfold legacy_warned. destruct (truthy _); [|done].
    rewrite elem_of_log_emit_in. intros [H|H]; [exact H|discriminate H]. }
  destruct (negb _).
  - unfold final_world. cbn [fst snd]. apply Hlegacy.
  - destruct (modules (localized ext (listed VUndefined c))) as [m|] eqn:Hm.
    + rewrite (createCoreModules_again ext _ _ m Hm).
      unfold final_world, rewarned. cbn [fst snd].
      destruct (is_str _ _); [|apply Hlegacy].
      rewrite elem_of_log_emit_in. intros [H|H]; [|discriminate H].
      revert H. apply Hlegacy.
    + rewrite (createCoreModules_first ext _ _ Hm).
      unfold final_world. cbn [fst snd alloc_in log]. apply Hlegacy.
Qed.

End Elements.

(** X8. [update] never assigns the session: the instance has after
    [update] the session it had before, whatever the incoming options
    hold. On an instance constructed without a session, an [update]
    that carries a [session] option therefore starts no session setup
    at all. *)
Theorem update_never_replaces_session
    (ext : Externals) (incoming : Obj) (c : Core) (w : World) :
  session (final_core (update ext incoming (c, w))) = session c
  ∧ (session c = None →
     ∀ s o, SessionSetup s o ∈ log (final_world (update ext incoming (c, w))) →
            SessionSetup s o ∈ log w).
Proof.
  rewrite update_steps.
  destruct (initialize ext (with_options (merge_options (options c) incoming) c, w))
    as [r [c1 w1]] eqn:Hinit.
  pose proof (initialize_frame ext _ _ _ _ _ Hinit) as ((Hsession & _) & _).
  cbn [with_options session] in Hsession.
  split.
  - destruct r as [[]| |]; exact Hsession.
  - intros Hs s o Hin.
    apply (initialize_without_session_is_local ext
             (with_options (merge_options (options c) incoming) c) w s o Hs).
    rewrite Hinit. unfold final_world in *. cbn [fst snd] in *.
    destruct r as [[]| |]; cbn [fst snd] in Hin; try exact Hin.
    apply elem_of_log_emits in Hin as [Hin|Hin]; [exact Hin|].
    apply list_elem_of_fmap in Hin as (el & Hel & _). discriminate Hel.
Qed.

Lemma update_never_replaces_session_witness :
  session (final_core
             (update development with_session_option
                (core_with dutch None, fresh_page))) = None
  ∧ get (options (final_core
                    (update development with_session_option
                       (core_with dutch None, fresh_page)))) "session"
    = VStr "CS-ok"
  ∧ ∀ s o, SessionSetup s o
           ∉ log (final_world
                    (update development with_session_option
                       (core_with dutch None, fresh_page))).
Proof.
  destruct (update_never_replaces_session development with_session_option
              (core_with dutch None) fresh_page) as (Hsession & Hquiet).
  split; [exact Hsession|]. split; [vm_compute; reflexivity|].
  intros s o Hin. apply (Hquiet eq_refl) in Hin. inversion Hin.
Defined.

(** X9. When the [initialize] inside [update] succeeds, every element
    the instance holds receives exactly one [update], in mounting
    order, after everything [initialize] did, and with the incoming
    options as passed (not the merged configuration). When that
    [initialize] fails or never settles, [update] ends the same way and
    no element is updated. *)
Theorem update_reaches_every_element
    (ext : Externals) (incoming : Obj) (c : Core) (w : World)
    (r : Res unit) (c1 : Core) (w1 : World) :
  initialize ext (with_options (merge_options (options c) incoming) c, w)
  = (r, (c1, w1)) →
  update ext incoming (c, w)
  = (r, (c1, match r with
             | Ok _ => emits (map (fun el => ElementUpdate el incoming)
                                (components c)) w1
             | _ => w1
             end)).
Proof.
  intros Hinit. rewrite update_steps, Hinit.
  pose proof (initialize_frame ext _ _ _ _ _ Hinit) as (_ & Hcomponents & _).
  cbn [with_options components] in Hcomponents.
  destruct r as [[]| |]; [by rewrite Hcomponents | reflexivity | reflexivity].
Qed.

Lemma update_reaches_every_element_witness :
  added (snd mounted) (final_world (update development french mounted))
  = [ConsoleWarn "Core: Core modules are already created.";
     ElementUpdate card_element french;
     ElementUpdate ideal_element french]
  ∧ added (snd mounted)
      (final_world (update development {["countryCode" := VNull]} mounted))
    = [].
Proof.
  split.
  - rewrite (surjective_pairing mounted).
    erewrite (update_reaches_every_element development french
                (fst mounted) (snd mounted));
      [|vm_compute; reflexivity].
    vm_compute. reflexivity.
  - rewrite (surjective_pairing mounted).
    erewrite (update_reaches_every_element development
                {["countryCode" := VNull]} (fst mounted) (snd mounted));
      [|vm_compute; reflexivity].
    vm_compute. reflexivity.
Defined.

(** X10. [update] never rebuilds the modules: an instance that has
    modules has the very same modules object after any [update],
    whatever its outcome, and nothing is allocated. In particular the
    [i18n] and analytics modules keep the locale they were created
    with even when the update changes the configured locale. *)
Theorem update_keeps_modules
    (ext : Externals) (incoming : Obj) (c : Core) (w : World) (m : Modules) :
  modules c = Some m →
  modules (final_core (update ext incoming (c, w))) = Some m
  ∧ next_ref (final_world (update ext incoming (c, w))) = next_ref w.
Proof.
  intros Hm. rewrite update_steps.
  destruct (initialize ext (with_options (merge_options (options c) incoming) c, w))
    as [r [c1 w1]] eqn:Hinit.
  destruct (initialize_keeps_modules ext
              (with_options (merge_options (options c) incoming) c)
              w m r c1 w1 Hm Hinit) as (Hm1 & Hn1).
  destruct r as [[]| |]; by split.
Qed.

Lemma update_keeps_modules_witness :
  get (options (final_core (update development french mounted))) "locale"
  = VStr "fr-FR"
  ∧ i18n <$> modules (final_core (update development french mounted))
    = Some (VStr "en-US", VUndefined, VUndefined).
Proof.
  split; [vm_compute; reflexivity|].
  rewrite (surjective_pairing mounted).
  destruct (update_keeps_modules development french (fst mounted) (snd mounted)
              (new_modules 0
                 (core_with (merge_options dutch {["locale" := VStr "en-US"]})
                    None)
                 fresh_page)) as (-> & _).
  - vm_compute. reflexivity.
  - vm_compute. reflexivity.
Defined.

(** X11. [remove] works by [_id]: it drops from the instance every
    held element whose [_id] is the component's (the component itself,
    a duplicate, or another object with that id), keeps all others in
    their order, touches nothing else of the instance, and calls
    [unmount] on the component exactly once, also when the instance
    never held it. Removing again changes no element and unmounts
    again. *)
Theorem remove_drops_by_id (component : UIElement) (c : Core) (w : World) :
  ∃ c',
    remove component (c, w)
    = (Ok tt, (c', emit_in (ElementUnmount component) w))
    ∧ (∀ el, el ∈ components c'
             ↔ el ∈ components c ∧ _id el ≠ _id component)
    ∧ sublist (components c') (components c)
    ∧ with_components (components c) c' = c
    ∧ remove component (c', emit_in (ElementUnmount component) w)
      = (Ok tt,
         (c', emit_in (ElementUnmount component)
                (emit_in (ElementUnmount component) w))).
Proof.
  exists (with_components
            (filter (fun el => _id el ≠ _id component) (components c)) c).
  split; [reflexivity|].
  split; [intros el; cbn [with_components components];
          rewrite list_elem_of_filter; tauto|].
  split; [apply sublist_filter|].
  split; [by destruct c|].
  unfold remove, bind, modify_this, emit, modify_host. cbn [fst snd].
  cbn [with_components components session paymentMethodsResponse modules
       options loadingContext cdnContext analyticsContext].
  assert (∀ l : list UIElement,
            filter (fun el => _id el ≠ _id component)
              (filter (fun el => _id el ≠ _id component) l)
            = filter (fun el => _id el ≠ _id component) l) as ->; [|reflexivity].
  intros l. rewrite list_filter_filter. apply list_filter_iff. tauto.
Qed.

(** X12. Storing a reference and removing it again is a round trip:
    when no held element shares the element's [_id], storing the
    element and then removing it leaves the instance exactly as it was,
    with one [unmount] of the element on the page. Storing a missing
    element does nothing. *)
Theorem store_then_remove_restores (el : UIElement) (c : Core) (w : World) :
  (∀ x, x ∈ components c → _id x ≠ _id el) →
  bind (storeElementReference (Some el)) (fun _ => remove el) (c, w)
  = (Ok tt, (c, emit_in (ElementUnmount el) w))
  ∧ storeElementReference None (c, w) = (Ok tt, (c, w)).
Proof.
  intros Hfresh. split; [|reflexivity].
  unfold bind, storeElementReference, remove, bind, modify_this, emit,
    modify_host. cbn [fst snd].
  cbn [with_components components session paymentMethodsResponse modules
       options loadingContext cdnContext analyticsContext].
  rewrite filter_app, filter_cons_False, filter_nil, app_nil_r
    by (intros H; by apply H).
  assert (filter (fun x => _id x ≠ _id el) (components c) = components c) as ->.
  { induction (components c) as [|x l IH]; [reflexivity|].
    rewrite filter_cons_True by (apply Hfresh; left).
    f_equal. apply IH. intros y Hy. apply Hfresh. by right. }
  by destruct c.
Qed.

Lemma store_then_remove_restores_witness :
  bind (storeElementReference (Some (mkUIElement 13 3 ∅)))
    (fun _ => remove (mkUIElement 13 3 ∅)) mounted
  = (Ok tt,
     (fst mounted, emit_in (ElementUnmount (mkUIElement 13 3 ∅)) (snd mounted))).
Proof.
  rewrite (surjective_pairing mounted) at 1.
  apply (store_then_remove_restores (mkUIElement 13 3 ∅)
           (fst mounted) (snd mounted)).
  intros x Hx. vm_compute in Hx.
  apply list_elem_of_In in Hx.
  destruct Hx as [<- | [<- | []]]; discriminate.
Defined.

(** ** The payment callbacks of [submitDetails] *)

Section Callbacks.

Context (ext : Externals).

Lemma quiet_ret {A} (a : A) : quiet (ret a).
Proof. by intros c w. Qed.

Lemma quiet_throw {A} (e : Val) : quiet (throw (A := A) e).
Proof. by intros c w. Qed.

Lemma quiet_settle {A} (r : Res A) : quiet (settle r).
Proof. by intros c w. Qed.

Lemma quiet_this : quiet this.
Proof. by intros c w. Qed.

Lemma quiet_emit (ev : Event) : quiet (emit ev).
Proof. by intros c w. Qed.

Lemma quiet_bind {A B} (m : M A) (k : A → M B) :
  quiet m → (∀ a, quiet (k a)) → quiet (bind m k).
Proof.
  intros Hm Hk c w. unfold bind.
  destruct (Hm c w) as (Hc & Hn).
  destruct (m (c, w)) as [[a|e|] [c1 w1]]; cbn [fst snd] in *; subst c1;
    [|by split|by split].
  destruct (Hk a c w1) as (Hc' & Hn'). split; [exact Hc'|congruence].
Qed.

Lemma quiet_catch {A} (m : M A) (h : Val → M A) :
  quiet m → (∀ e, quiet (h e)) → quiet (catch m h).
Proof.
  intros Hm Hh c w. unfold catch.
  destruct (Hm c w) as (Hc & Hn).
  destruct (m (c, w)) as [[a|e|] [c1 w1]]; cbn [fst snd] in *; subst c1;
    [by split| |by split].
  destruct (Hh e c w1) as (Hc' & Hn'). split; [exact Hc'|congruence].
Qed.

Lemma quiet_detached {A} (p : M A) : quiet p → quiet (detached p).
Proof. intros Hp c w. unfold detached. cbn [fst snd]. apply Hp. Qed.

Lemma quiet_call (name : string) (f : Val) (args : list Val) :
  quiet (call name f args).
Proof. unfold call. destruct f; (apply quiet_throw || apply quiet_emit). Qed.

Lemma quiet_opt_call (name : string) (f : Val) (args : list Val) :
  quiet (opt_call name f args).
Proof.
  unfold opt_call. destruct (nullish f); [apply quiet_ret|apply quiet_call].
Qed.

Lemma quiet_postProcess (p : M Val) : quiet p → quiet (postProcess ext p).
Proof.
  intros Hp. unfold postProcess. apply quiet_catch.
  - apply quiet_bind; [exact Hp|]. intros raw.
    apply quiet_bind; [apply quiet_settle|]. intros sanitized.
    apply quiet_bind; [apply quiet_settle|]. intros response.
    apply quiet_bind; [apply quiet_this|]. intros c. apply quiet_opt_call.
  - intros e. apply quiet_bind; [apply quiet_this|]. intros c.
    apply quiet_opt_call.
Qed.

Lemma quiet_merchant_settlement (callback details : Val) :
  quiet (merchant_settlement ext callback details).
Proof.
  unfold merchant_settlement.
  destruct callback; (apply quiet_throw || apply quiet_settle).
Qed.

Lemma quiet_session_settlement (s : Session) (details : Val) :
  quiet (session_settlement ext s details).
Proof.
  unfold session_settlement. apply quiet_catch; [apply quiet_settle|].
  intros e. apply quiet_bind; [apply quiet_this|]. intros c.
  apply quiet_bind; [apply quiet_opt_call|]. intros _. apply quiet_throw.
Qed.

(** The chain hung on a promise that has settled, read off its verified
    settlement, for a completion callback that is a function or absent. *)
Lemma postProcess_settled (r : Res Val) (c : Core) (w : World) :
  callback_or_absent (get (options c) "onPaymentCompleted") →
  snd (postProcess ext (settle r) (c, w))
  = (c, match verified ext r with
        | Ok response =>
            notified "onPaymentCompleted" c (cleanupFinalResult ext response) w
        | Throw reason =>
            notified "onPaymentFailed" c (cleanupFinalResult ext reason) w
        | Never => w
        end).
Proof.
  intros Hcompleted.
  assert (∀ v, snd (opt_call "onPaymentFailed"
                      (get (options c) "onPaymentFailed") [v] (c, w))
               = (c, notified "onPaymentFailed" c v w)) as Hfailed.
  { intros v. unfold opt_call, call, notified.
    destruct (get (options c) "onPaymentFailed"); reflexivity. }
  unfold postProcess, catch, bind, settle, verified, this. cbn [fst snd].
  destruct r as [raw|e|]; [|apply Hfailed|reflexivity].
  destruct (sanitizeResponse ext raw) as [sanitized|e|];
    [|apply Hfailed|reflexivity].
  destruct (verifyPaymentDidNotFail ext sanitized) as [response|e|];
    [|apply Hfailed|reflexivity].
  unfold opt_call, call, notified.
  destruct Hcompleted as [Hnull | [g Hg]].
  - rewrite Hnull. destruct (get (options c) "onPaymentCompleted");
      try discriminate Hnull; reflexivity.
  - rewrite Hg. reflexivity.
Qed.

End Callbacks.

(** X13. On the callback pathway the merchant's result reaches exactly
    one payment callback. After [onAdditionalDetails] has been called,
    a result that passes sanitizing and verification goes, cleaned up,
    to [onPaymentCompleted]; a rejection by the merchant, by sanitizing
    or by verification goes, cleaned up, to [onPaymentFailed]; while
    the merchant has not settled nothing is called. An absent callback
    is skipped silently, and the instance is unchanged throughout. *)
Theorem merchant_result_reaches_one_callback
    (ext : Externals) (c : Core) (w : World) (details : Val) (f : nat) :
  session c = None →
  get (options c) "onAdditionalDetails" = VFun f →
  callback_or_absent (get (options c) "onPaymentCompleted") →
  submitDetails ext details (c, w)
  = (Ok tt,
     (c,
      let w1 := emit_in (Called "onAdditionalDetails" f
                           [VObj {["data" := details]}; VUndefined]) w in
      match verified ext (merchant_settles ext f details) with
      | Ok response =>
          notified "onPaymentCompleted" c (cleanupFinalResult ext response) w1
      | Throw reason =>
          notified "onPaymentFailed" c (cleanupFinalResult ext reason) w1
      | Never => w1
      end)).
Proof.
  intros Hs Hcb Hcompleted.
  rewrite (submitDetails_callback_pathway ext c w details f Hs Hcb).
  unfold detached, merchant_settlement. cbn [fst snd].
  rewrite (postProcess_settled ext _ c _ Hcompleted). reflexivity.
Qed.

Lemma merchant_result_reaches_one_callback_witness :
  added fresh_page
    (final_world (submitDetails development redirect_details
                    (core_with with_all_callbacks None, fresh_page)))
  = [Called "onAdditionalDetails" 7
       [VObj {["data" := redirect_details]}; VUndefined];
     Called "onPaymentCompleted" 1 [authorised "merchant"]].
Proof.
  rewrite (merchant_result_reaches_one_callback development
             (core_with with_all_callbacks None) fresh_page redirect_details 7
             eq_refl eq_refl).
  - vm_compute. reflexivity.
  - right. exists 1. reflexivity.
Defined.

(** X14. A failing session submission is reported twice: the session
    pathway first hands the error to [onError], and the same error,
    cleaned up, then reaches [onPaymentFailed] through the common
    chain; [onPaymentCompleted] is not called. *)
Theorem session_submit_failure_is_reported_twice
    (ext : Externals) (c : Core) (w : World) (s : Session) (details e : Val)
    (g h : nat) :
  session c = Some s →
  truthy (get (options c) "onAdditionalDetails") = false →
  session_submitDetails ext s details = Throw e →
  get (options c) "onError" = VFun g →
  get (options c) "onPaymentFailed" = VFun h →
  submitDetails ext details (c, w)
  = (Ok tt,
     (c, emits [SessionSubmitDetails s details;
                Called "onError" g [e];
                Called "onPaymentFailed" h [cleanupFinalResult ext e]] w)).
Proof.
  intros Hs Hcb Hfail Herror Hfailed.
  rewrite (submitDetails_session_pathway ext c w details s Hs Hcb).
  unfold detached, postProcess, session_settlement, catch, bind, settle, this.
  cbn [fst snd]. rewrite Hfail. cbn [fst snd].
  rewrite Herror. unfold opt_call, call, emit, modify_host, throw.
  cbn [nullish fst snd]. rewrite Hfailed. cbn [nullish fst snd].
  by rewrite !emits_cons, emits_nil.
Qed.

Lemma session_submit_failure_is_reported_twice_witness :
  log (final_world
         (submitDetails development redirect_details
            (core_with session_callbacks (Some down_session), fresh_page)))
  = [SessionSubmitDetails down_session redirect_details;
     Called "onError" 3 [session_down];
     Called "onPaymentFailed" 2 [session_down]].
Proof.
  rewrite (session_submit_failure_is_reported_twice development
             (core_with session_callbacks (Some down_session)) fresh_page
             down_session redirect_details session_down 3 2
             eq_refl eq_refl eq_refl eq_refl eq_refl).
  reflexivity.
Defined.

Lemma onAdditionalDetails_promise_run
    (ext : Externals) (details : Val) (c : Core) (w : World) :
  ∃ w', onAdditionalDetails_promise ext details (c, w)
        = (Ok (merchant_settlement ext
                 (get (options c) "onAdditionalDetails") details),
           (c, w'))
        ∧ next_ref w' = next_ref w.
Proof.
  unfold onAdditionalDetails_promise, bind, this, emit, modify_host, ret.
  cbn [fst snd].
  destruct (get (options c) "onAdditionalDetails");
    eexists; split; reflexivity.
Qed.

(** X15. [submitDetails] never changes the instance and allocates
    nothing, whatever the configuration and however the exchanges
    settle; and whenever a pathway is available (a session, or a truthy
    [onAdditionalDetails]) it returns normally, every later failure
    going to the callbacks instead of the caller. *)
Theorem submitDetails_leaves_the_instance_alone
    (ext : Externals) (details : Val) (c : Core) (w : World) :
  final_core (submitDetails ext details (c, w)) = c
  ∧ next_ref (final_world (submitDetails ext details (c, w))) = next_ref w
  ∧ (is_Some (session c) ∨ truthy (get (options c) "onAdditionalDetails") = true →
     outcome (submitDetails ext details (c, w)) = Ok tt).
Proof.
  unfold final_core, final_world, outcome.
  unfold submitDetails, bind, this. cbn [fst snd].
  destruct (onAdditionalDetails_promise_run ext details c w)
    as (w' & Hrun & Hn).
  destruct (truthy (get (options c) "onAdditionalDetails")) eqn:Hcb;
    destruct (session c) as [s|] eqn:Hs; unfold bind.
  - rewrite Hrun. unfold ret, session_promise, bind, emit, modify_host.
    cbn [fst snd].
    destruct (quiet_detached
                (postProcess ext (session_settlement ext s details))
                (quiet_postProcess ext _ (quiet_session_settlement ext s details))
                c (emit_in (SessionSubmitDetails s details) w'))
      as (Hc & Hn').
    split; [exact Hc|]. split; [exact (eq_trans Hn' Hn)|].
    reflexivity.
  - rewrite Hrun. unfold ret. cbn [fst snd].
    destruct (quiet_detached
                (postProcess ext
                   (merchant_settlement ext
                      (get (options c) "onAdditionalDetails") details))
                (quiet_postProcess ext _
                   (quiet_merchant_settlement ext _ details))
                c w')
      as (Hc & Hn').
    split; [exact Hc|]. split; [exact (eq_trans Hn' Hn)|]. reflexivity.
  - unfold ret, session_promise, bind, emit, modify_host. cbn [fst snd].
    destruct (quiet_detached
                (postProcess ext (session_settlement ext s details))
                (quiet_postProcess ext _ (quiet_session_settlement ext s details))
                c (emit_in (SessionSubmitDetails s details) w))
      as (Hc & Hn').
    split; [exact Hc|]. split; [exact Hn'|]. reflexivity.
  - unfold ret. cbn [fst snd].
    destruct (quiet_opt_call "onError" (get (options c) "onError")
                [VError (AdyenCheckoutError "IMPLEMENTATION_ERROR")
                   ("It can not submit the details. The callback "
                    ++ quoted "onAdditionalDetails"
                    ++ " or the Session is not setup correctly.")] c w)
      as (Hc & Hn').
    split; [exact Hc|]. split; [exact Hn'|].
    intros [[s Hsome] | Hfalse]; discriminate.
Qed.

Lemma submitDetails_leaves_the_instance_alone_witness :
  final_core (submitDetails development redirect_details
                (core_with session_callbacks (Some down_session), fresh_page))
  = core_with session_callbacks (Some down_session)
  ∧ outcome (submitDetails development redirect_details
               (core_with session_callbacks (Some down_session), fresh_page))
    = Ok tt.
Proof.
  destruct (submitDetails_leaves_the_instance_alone development
              redirect_details
              (core_with session_callbacks (Some down_session)) fresh_page)
    as (Hcore & _ & Hok).
  split; [exact Hcore|]. apply Hok. left. eexists. reflexivity.
Defined.

(** X16. [createFromAction] needs an initialised instance: for an
    action that passes the type check, an instance without modules
    throws a [TypeError] before anything else happens: no analytics
    event is sent and no element is returned. *)
Theorem createFromAction_before_initialize
    (ext : Externals) (c : Core) (w : World) (action : Val) (options_ : Obj) :
  modules c = None →
  truthy action = true →
  truthy (prop ext action "type") = true →
  ∃ message,
    createFromAction ext action options_ (c, w)
    = (Throw (VError TypeError message), (c, w)).
Proof.
  intros Hm Ha Ht. unfold createFromAction. rewrite Ha, Ht. cbn [negb orb].
  unfold bind, this. cbn [fst snd]. rewrite Hm.
  eexists. reflexivity.
Qed.

Lemma createFromAction_before_initialize_witness :
  ∃ message,
    createFromAction development ideal_redirect ∅
      (core_with dutch None, fresh_page)
    = (Throw (VError TypeError message), (core_with dutch None, fresh_page)).
Proof.
  apply (createFromAction_before_initialize development
           (core_with dutch None) fresh_page ideal_redirect ∅);
    reflexivity.
Defined.

(** * The PayPal element *)

Section Paypal.

Context (ext : Externals) (data_paymentMethod_type : string).

Local Abbreviation updateWithAction' :=
  (updateWithAction ext data_paymentMethod_type).

(** What an action does to the stored payment data, once it is
    accepted. *)
Lemma paymentData_after_action (action : Val) (el : PaypalElement) :
  nullish action = false →
  is_str (prop ext action "paymentMethodType") data_paymentMethod_type = true →
  paymentData (snd (updateWithAction' action el))
  = (if truthy (prop ext action "paymentData")
     then prop ext action "paymentData"
     else paymentData el)
  ∧ resolve (snd (updateWithAction' action el)) = resolve el
  ∧ reject (snd (updateWithAction' action el)) = reject el
  ∧ promises (snd (updateWithAction' action el)) = promises el.
Proof.
  intros Hn Ht. unfold updateWithAction. rewrite Hn, Ht. cbn [negb].
  destruct el as [stored [p|] [q|] n events];
    destruct (truthy (prop ext action "paymentData"));
    destruct (truthy (prop ext action "sdkData")
              && truthy (prop ext (prop ext action "sdkData") "token"));
    cbn [with_paymentData hear resolve reject paymentData promises snd];
    by repeat split.
Qed.

End Paypal.

(** X17. An action for another payment method is refused outright:
    when the action's [paymentMethodType] is not the element's own
    type, [updateWithAction] (and [handleAction]) throws
    [Invalid Action] and leaves the element exactly as it was: the
    payment data is not stored and the pending promise is neither
    resolved nor rejected. *)
Theorem updateWithAction_refuses_foreign_action
    (ext : Externals) (type : string) (action : Val) (el : PaypalElement) :
  nullish action = false →
  is_str (prop ext action "paymentMethodType") type = false →
  updateWithAction ext type action el
  = (Throw (VError PlainError "Invalid Action"), el)
  ∧ handleAction ext type action el
    = (Throw (VError PlainError "Invalid Action"), el).
Proof.
  intros Hn Ht. unfold handleAction, updateWithAction. by rewrite Hn, Ht.
Qed.

Lemma updateWithAction_refuses_foreign_action_witness :
  updateWithAction development "paypal" ideal_redirect
    (snd (handleSubmit new_PaypalElement))
  = (Throw (VError PlainError "Invalid Action"),
     snd (handleSubmit new_PaypalElement)).
Proof.
  apply (updateWithAction_refuses_foreign_action development "paypal"
           ideal_redirect (snd (handleSubmit new_PaypalElement)));
    reflexivity.
Defined.

(** X18. An accepted action settles the promise of the latest
    [handleSubmit], once: after [handleSubmit] has returned promise
    [p], an action of the element's type returns [null] and calls
    exactly one settling function of [p]: [resolve] with
    [sdkData.token] when there is a truthy token, [reject] with
    [No token was provided] otherwise. Since each [handleSubmit] makes
    a new promise, a promise from an earlier [handleSubmit] is never
    settled by a later action. *)
Theorem updateWithAction_settles_latest_submit
    (ext : Externals) (type : string) (action : Val) (el : PaypalElement) :
  nullish action = false →
  is_str (prop ext action "paymentMethodType") type = true →
  let p := fst (handleSubmit el) in
  let submitted := snd (handleSubmit el) in
  let token := prop ext (prop ext action "sdkData") "token" in
  p = promises el
  ∧ fst (handleSubmit submitted) = S p
  ∧ fst (updateWithAction ext type action submitted) = Ok VNull
  ∧ heard (snd (updateWithAction ext type action submitted))
    = (heard el
       ++ [OnSubmit;
           if truthy (prop ext action "sdkData") && truthy token
           then ResolveCalled p token
           else RejectCalled p (VError PlainError "No token was provided")])%list.
Proof.
  intros Hn Ht. cbv zeta. split; [reflexivity|]. split; [reflexivity|].
  unfold updateWithAction. rewrite Hn, Ht. cbn [negb].
  destruct (truthy (prop ext action "paymentData"));
    destruct (truthy (prop ext action "sdkData")
              && truthy (prop ext (prop ext action "sdkData") "token"));
    cbn; rewrite <- app_assoc; by split.
Qed.

Lemma updateWithAction_settles_latest_submit_witness :
  heard (snd (updateWithAction development "paypal" (paypal_order "EC-7")
                (snd (handleSubmit (snd (handleSubmit new_PaypalElement))))))
  = [OnSubmit; OnSubmit; ResolveCalled 1 (VStr "EC-7")]
  ∧ heard (snd (updateWithAction development "paypal" paypal_without_token
                  (snd (handleSubmit new_PaypalElement))))
    = [OnSubmit;
       RejectCalled 0 (VError PlainError "No token was provided")].
Proof.
  split.
  - etransitivity;
      [apply (updateWithAction_settles_latest_submit development "paypal"
                (paypal_order "EC-7") (snd (handleSubmit new_PaypalElement)));
       reflexivity
      |reflexivity].
  - etransitivity;
      [apply (updateWithAction_settles_latest_submit development "paypal"
                paypal_without_token new_PaypalElement);
       reflexivity
      |reflexivity].
Defined.

(** X19. The element remembers the payment data of the last action that
    carried some: an accepted action with truthy [paymentData] stores
    it, a later accepted action without [paymentData] keeps it, and
    [handleComplete] then hands [handleAdditionalDetails] the details
    together with that stored payment data. *)
Theorem handleComplete_sends_remembered_paymentData
    (ext : Externals) (type : string) (first later details : Val)
    (el : PaypalElement) :
  nullish first = false →
  is_str (prop ext first "paymentMethodType") type = true →
  truthy (prop ext first "paymentData") = true →
  nullish later = false →
  is_str (prop ext later "paymentMethodType") type = true →
  truthy (prop ext later "paymentData") = false →
  let el1 := snd (updateWithAction ext type first el) in
  let el2 := snd (updateWithAction ext type later el1) in
  paymentData el2 = prop ext first "paymentData"
  ∧ heard (handleComplete details el2)
    = (heard el2
       ++ [HandleAdditionalDetails
             (VObj {["data" :=
                       VObj (<["details" := details]>
                               {["paymentData" :=
                                   prop ext first "paymentData"]})]})])%list.
Proof.
  intros Hn1 Ht1 Hp1 Hn2 Ht2 Hp2. cbv zeta.
  destruct (paymentData_after_action ext type later
              (snd (updateWithAction ext type first el)) Hn2 Ht2) as (Hpd2 & _).
  destruct (paymentData_after_action ext type first el Hn1 Ht1) as (Hpd1 & _).
  rewrite Hp2 in Hpd2. rewrite Hp1 in Hpd1.
  split; [congruence|].
  unfold handleComplete, hear. cbn [heard]. by rewrite Hpd2, Hpd1.
Qed.

Lemma handleComplete_sends_remembered_paymentData_witness :
  let el :=
    snd (updateWithAction development "paypal" paypal_without_token
           (snd (updateWithAction development "paypal" (paypal_order "EC-7")
                   (snd (handleSubmit new_PaypalElement))))) in
  paymentData el = VStr "Ab02b4c0"
  ∧ heard (handleComplete (VStr "payer-1") el)
    = (heard el
       ++ [HandleAdditionalDetails
             (VObj {["data" :=
                       VObj (<["details" := VStr "payer-1"]>
                               {["paymentData" := VStr "Ab02b4c0"]})]})])%list.
Proof.
  cbv zeta.
  destruct (handleComplete_sends_remembered_paymentData development "paypal"
              (paypal_order "EC-7") paypal_without_token (VStr "payer-1")
              (snd (handleSubmit new_PaypalElement)))
    as (Hdata & Hheard); try reflexivity.
  split; [exact Hdata | exact Hheard].
Defined.

(** X20. An action that arrives before any [handleSubmit] cannot settle
    anything: on an element whose [resolve] and [reject] are still
    [null], an accepted action throws a [TypeError] instead of
    returning, and by then its payment data has already been stored. *)
Theorem updateWithAction_before_submit
    (ext : Externals) (type : string) (action : Val) (el : PaypalElement) :
  nullish action = false →
  is_str (prop ext action "paymentMethodType") type = true →
  resolve el = None →
  reject el = None →
  ∃ message,
    updateWithAction ext type action el
    = (Throw (VError TypeError message),
       if truthy (prop ext action "paymentData")
       then with_paymentData (prop ext action "paymentData") el
       else el).
Proof.
  intros Hn Ht Hres Hrej. unfold updateWithAction. rewrite Hn, Ht. cbn [negb].
  destruct (truthy (prop ext action "paymentData"));
    destruct (truthy (prop ext action "sdkData")
              && truthy (prop ext (prop ext action "sdkData") "token"));
    cbn [with_paymentData resolve reject]; rewrite ?Hres, ?Hrej;
    eexists; reflexivity.
Qed.

Lemma updateWithAction_before_submit_witness :
  ∃ message,
    updateWithAction development "paypal" (paypal_order "EC-7")
      new_PaypalElement
    = (Throw (VError TypeError message),
       with_paymentData (VStr "Ab02b4c0") new_PaypalElement).
Proof.
  destruct (updateWithAction_before_submit development "paypal"
              (paypal_order "EC-7") new_PaypalElement)
    as (message & Hrun); try reflexivity.
  exists message. rewrite Hrun. reflexivity.
Defined.

(** * The currency table and the build's chunk names *)

Lemma currencies_three_letters :
  map_Forall (fun _ currency => String.length currency = 3) currencies.
Proof.
  apply map_Forall_to_list. vm_compute. repeat constructor.
Qed.

(** X21. [getCurrency] always answers with a three-letter currency code
    for a country code that is not the name of an inherited object
    member: the table's own entry when the country is listed, and [EUR]
    (the [default] entry) for every other one; it never answers with an
    empty or undefined currency. *)
Theorem getCurrency_falls_back_to_EUR
    (Object_prototype : Obj) (countryCode : string) :
  Object_prototype !! countryCode = None →
  ∃ currency,
    getCurrency Object_prototype countryCode = VStr currency
    ∧ String.length currency = 3
    ∧ match currencies !! countryCode with
      | Some listed => currency = listed
      | None => currency = "EUR"
      end.
Proof.
  intros Hown. unfold getCurrency, currencies_member at 1, js_or.
  destruct (currencies !! countryCode) as [listed|] eqn:Hlisted.
  - pose proof (currencies_three_letters countryCode listed Hlisted) as Hlen.
    exists listed. cbn [truthy] in *.
    destruct listed; [discriminate Hlen|]. by cbn.
  - unfold get. rewrite Hown. cbn [default truthy].
    exists "EUR". by repeat split.
Qed.

Lemma getCurrency_falls_back_to_EUR_witness :
  getCurrency sample_Object_prototype "US" = VStr "USD"
  ∧ getCurrency sample_Object_prototype "NL" = VStr "EUR"
  ∧ getCurrency sample_Object_prototype "" = VStr "EUR".
Proof.
  split; [|split].
  - destruct (getCurrency_falls_back_to_EUR sample_Object_prototype "US"
                eq_refl) as (currency & -> & _ & Hc).
    vm_compute in Hc. by rewrite Hc.
  - destruct (getCurrency_falls_back_to_EUR sample_Object_prototype "NL"
                eq_refl) as (currency & -> & _ & Hc).
    vm_compute in Hc. by rewrite Hc.
  - destruct (getCurrency_falls_back_to_EUR sample_Object_prototype ""
                eq_refl) as (currency & -> & _ & Hc).
    vm_compute in Hc. by rewrite Hc.
Defined.

Lemma skip_append (p q : string) : skip (String.length p) (p ++ q) = q.
Proof. induction p as [|a p IH]; [by destruct q | exact IH]. Qed.

Lemma replace_unfold (s pattern replacement : string) :
  replace s pattern replacement
  = if String.prefix pattern s
    then replacement ++ skip (String.length pattern) s
    else match s with
         | EmptyString => EmptyString
         | String a s' => String a (replace s' pattern replacement)
         end.
Proof. destruct s; reflexivity. Qed.

(** [replace] rewrites the first occurrence of the pattern, and only
    that one. *)
Lemma replace_first_occurrence (s pattern replacement : string) :
  includes s pattern = true →
  ∃ pre post,
    s = pre ++ pattern ++ post
    ∧ replace s pattern replacement = pre ++ replacement ++ post
    ∧ ∀ pre' post', s = pre' ++ pattern ++ post' →
                    (String.length pre ≤ String.length pre')%nat.
Proof.
  induction s as [|a s IH]; intros Hinc.
  - rewrite includes_nil, orb_false_r in Hinc.
    rewrite replace_unfold, Hinc.
    apply prefix_iff_append in Hinc as [post Hpost].
    exists EmptyString, post. split; [exact Hpost|].
    split; [|intros; cbn; lia].
    rewrite Hpost at 1. by rewrite skip_append.
  - rewrite replace_unfold. rewrite includes_cons in Hinc.
    destruct (String.prefix pattern (String a s)) eqn:Hp.
    + apply prefix_iff_append in Hp as [post Hpost].
      exists EmptyString, post. split; [exact Hpost|].
      split; [|intros; cbn; lia].
      rewrite Hpost at 1. by rewrite skip_append.
    + cbn [orb] in Hinc. destruct (IH Hinc) as (pre & post & Hs & Hr & Hmin).
      exists (String a pre), post. rewrite !append_cons.
      split; [by rewrite Hs|]. split; [by rewrite Hr|].
      intros [|b pre'] post' Hdec.
      * assert (String.prefix pattern (String a s) = true) as Htrue
          by (apply prefix_iff_append; eauto).
        congruence.
      * rewrite append_cons in Hdec. injection Hdec as _ Hdec.
        cbn [String.length]. apply le_n_S. by apply (Hmin pre' post').
Qed.

(** X22. The build names a chunk that comes from [node_modules] by
    replacing the first [node_modules] in the chunk's name with
    [external] and appending [.js]; later occurrences stay as they are.
    Every other chunk gets the pattern [[name].js]. *)
Theorem entryFileNames_renames_first_node_modules (name : string) :
  (includes name "node_modules" = false → entryFileNames name = "[name].js")
  ∧ (includes name "node_modules" = true →
     ∃ pre post,
       name = pre ++ "node_modules" ++ post
       ∧ entryFileNames name = pre ++ "external" ++ post ++ ".js"
       ∧ ∀ pre' post', name = pre' ++ "node_modules" ++ post' →
                       (String.length pre ≤ String.length pre')%nat).
Proof.
  unfold entryFileNames. split; intros Hinc; rewrite Hinc; [reflexivity|].
  destruct (replace_first_occurrence name "node_modules" "external" Hinc)
    as (pre & post & Hname & Hreplace & Hfirst).
  exists pre, post. split; [exact Hname|]. split; [|exact Hfirst].
  rewrite Hreplace. clear.
  induction pre as [|a pre IH]; [reflexivity|].
  rewrite !append_cons. f_equal. exact IH.
Qed.

Lemma entryFileNames_renames_first_node_modules_witness :
  entryFileNames "src/core/core" = "[name].js"
  ∧ entryFileNames "node_modules/preact/node_modules/x"
    = "external/preact/node_modules/x.js".
Proof.
  split.
  - apply (proj1 (entryFileNames_renames_first_node_modules "src/core/core")).
    reflexivity.
  - destruct (proj2 (entryFileNames_renames_first_node_modules
                       "node_modules/preact/node_modules/x") eq_refl)
      as (pre & post & Hname & Hrun & Hfirst).
    rewrite Hrun.
    assert (String.length pre ≤ 0)%nat as Hzero
      by (apply (Hfirst EmptyString "/preact/node_modules/x"); reflexivity).
    destruct pre; [|cbn in Hzero; lia].
    apply (f_equal (skip 12)) in Hname. vm_compute in Hname.
    subst post. reflexivity.
Defined.

(** * Composing configuration merges *)

Lemma js_or_assoc (a b c : Val) : js_or (js_or a b) c = js_or a (js_or b c).
Proof.
  unfold js_or. destruct (truthy a) eqn:Ha; [by rewrite Ha|].
  destruct (truthy b) eqn:Hb; by rewrite ?Hb.
Qed.

Lemma merge_options_assoc (current a b : Obj) :
  merge_options (merge_options current a) b
  = merge_options current (merge_options a b).
Proof.
  apply map_eq. intros k.
  destruct (decide (k = "locale")) as [->|Hk].
  - unfold merge_options at 1 3. rewrite !lookup_insert_eq.
    rewrite !get_merge_options_locale. by rewrite js_or_assoc.
  - rewrite !lookup_merge_options by exact Hk.
    destruct (b !! k); reflexivity.
Qed.

Lemma merge_options_again (current a : Obj) :
  merge_options (merge_options current a) a = merge_options current a.
Proof.
  apply map_eq. intros k.
  destruct (decide (k = "locale")) as [->|Hk].
  - unfold merge_options at 1 3. rewrite !lookup_insert_eq.
    rewrite get_merge_options_locale. f_equal. unfold js_or.
    destruct (truthy (get a "locale")); reflexivity.
  - rewrite !lookup_merge_options by exact Hk.
    destruct (a !! k); reflexivity.
Qed.

(** X23. Configuration merges compose: applying [setOptions] with one
    patch and then with another leaves the same options as a single
    [setOptions] with the second patch merged over the first, so a
    sequence of updates can be replayed as one; and applying the same
    patch twice changes nothing the second time. *)
Theorem setOptions_composes (first second : Obj) (c : Core) (w : World) :
  bind (setOptions first) (fun _ => setOptions second) (c, w)
  = setOptions (merge_options first second) (c, w)
  ∧ bind (setOptions first) (fun _ => setOptions first) (c, w)
    = setOptions first (c, w).
Proof.
  unfold bind, setOptions, modify_this. cbn [fst snd].
  cbn [with_options options session paymentMethodsResponse modules
       loadingContext cdnContext analyticsContext components].
  by rewrite merge_options_assoc, merge_options_again.
Qed.
